(** * cc-utils: pipeline steps, trait transformers and helpers

    A shallow embedding of the parts of cc-utils that build the step graph
    of a pipeline job:

    - [concourse/pipelines/model/step.py]  ([PipelineStep]),
    - [concourse/model/traits/release.py]  ([ReleaseTraitTransformer]),
    - [concourse/model/traits/pullrequest.py] ([PullRequestTraitTransformer]),
    - [util.py]                            ([merge_dicts]),
    - [container/registry.py]              ([normalise_image_reference]).

    Python objects that are mutated in place are modelled by explicit state
    passing; an exception is a [Raise] outcome that leaves the state as it
    was when the exception was raised. *)

From Stdlib Require Import ZArith String Ascii List Bool Lia.
From Stdlib Require Import DecimalString.
From stdpp Require Import base option list gmap sets strings.

Local Open Scope string_scope.
Local Open Scope list_scope.

(** ** Python values and exceptions *)

(** Scalars of a configuration document. *)
Inductive pyatom : Type :=
| ANone
| ABool (b : bool)
| AInt (z : Z)
| AStr (s : string).

(** Configuration values: scalars, lists and string-keyed mappings.  A
    mapping is an association list in insertion order, as a Python [dict]
    iterates. *)
#[local] Unset Elimination Schemes.
Inductive pyval : Type :=
| PyAtom (a : pyatom)
| PyList (l : list pyval)
| PyDict (d : list (string * pyval)).
#[local] Set Elimination Schemes.

Definition pydict : Type := list (string * pyval).

(** The exceptions raised by the modelled code.  [Dangling] is not one of
    them: it is the outcome of reading a reference that the object store
    does not hold, which no Python program can do. *)
Inductive exn : Type :=
| ValueError (msg : string)
| ModelValidationError (msg : string)
| IndexError
| KeyError (key : string)
| AttributeError (attr : string)
| NotImplementedError
| Failure
| Dangling.

Inductive res (A : Type) : Type :=
| Ok (a : A)
| Raise (e : exn).
Arguments Ok {A} a.
Arguments Raise {A} e.

(** State-and-exception monad: a method of an object of type [S]. *)
Definition M (S A : Type) : Type := S -> res A * S.

Definition ret {S A} (a : A) : M S A := fun s => (Ok a, s).
Definition raise {S A} (e : exn) : M S A := fun s => (Raise e, s).
Definition bind {S A B} (m : M S A) (k : A -> M S B) : M S B :=
  fun s => match m s with
           | (Ok a, s') => k a s'
           | (Raise e, s') => (Raise e, s')
           end.
Definition get {S} : M S S := fun s => (Ok s, s).
Definition put {S} (s : S) : M S unit := fun _ => (Ok tt, s).
Definition modify {S} (f : S -> S) : M S unit := fun s => (Ok tt, f s).

Notation "'let*' x ':=' m 'in' k" := (bind m (fun x => k))
  (at level 10, x name, m at level 100, k at level 200).
Notation "m ';;;' k" := (bind m (fun _ => k))
  (at level 100, k at level 200, right associativity).

(** ** Strings *)

Module Str.

Definition DQUOTE : ascii := ascii_of_nat 34.
Definition SQUOTE : ascii := ascii_of_nat 39.

(** [c in s] for a one-character [c]. *)
Fixpoint contains (c : ascii) (s : string) : bool :=
  match s with
  | EmptyString => false
  | String d s' => if Ascii.eqb c d then true else contains c s'
  end.

(** [all(map(p, s))] *)
Fixpoint all (p : ascii -> bool) (s : string) : bool :=
  match s with
  | EmptyString => true
  | String c s' => p c && all p s'
  end.

(** [s.split(sep)] for a one-character separator: never the empty list. *)
Fixpoint split (sep : ascii) (s : string) : list string :=
  match s with
  | EmptyString => [EmptyString]
  | String c s' =>
      if Ascii.eqb c sep then EmptyString :: split sep s'
      else match split sep s' with
           | [] => [String c EmptyString]
           | p :: ps => String c p :: ps
           end
  end.

(** [sep.join(parts)] *)
Fixpoint join (sep : string) (parts : list string) : string :=
  match parts with
  | [] => EmptyString
  | [p] => p
  | p :: ps => p +:+ sep +:+ join sep ps
  end.

(** [s.replace(c, by)] for a one-character [c]. *)
Fixpoint replace (c : ascii) (by_ : string) (s : string) : string :=
  match s with
  | EmptyString => EmptyString
  | String d s' =>
      if Ascii.eqb d c then by_ +:+ replace c by_ s'
      else String d (replace c by_ s')
  end.

Definition startswith (c : ascii) (s : string) : bool :=
  match s with
  | EmptyString => false
  | String d _ => Ascii.eqb d c
  end.

Fixpoint endswith (c : ascii) (s : string) : bool :=
  match s with
  | EmptyString => false
  | String d EmptyString => Ascii.eqb d c
  | String _ s' => endswith c s'
  end.

Definition is_empty (s : string) : bool :=
  match s with EmptyString => true | _ => false end.

Definition of_Z (z : Z) : string := NilZero.string_of_int (Z.to_int z).

End Str.

(** [str(v)] on scalars. *)
Definition py_str (a : pyatom) : string :=
  match a with
  | ANone => "None"
  | ABool true => "True"
  | ABool false => "False"
  | AInt z => Str.of_Z z
  | AStr s => s
  end.

(** ** Dictionaries in insertion order *)

Module Dict.
Section Dict.
Context {V : Type}.

(** [d.get(k)] *)
Fixpoint lookup (k : string) (d : list (string * V)) : option V :=
  match d with
  | [] => None
  | (k', v) :: d' => if String.eqb k k' then Some v else lookup k d'
  end.

(** [k in d] *)
Definition mem (k : string) (d : list (string * V)) : bool :=
  match lookup k d with Some _ => true | None => false end.

(** [d[k] = v]: an existing key keeps its position, a new key goes last. *)
Fixpoint set (k : string) (v : V) (d : list (string * V)) : list (string * V) :=
  match d with
  | [] => [(k, v)]
  | (k', v') :: d' =>
      if String.eqb k k' then (k', v) :: d' else (k', v') :: set k v d'
  end.

Definition keys (d : list (string * V)) : list string := map fst d.

End Dict.
End Dict.

(** ** Library functions used by the step model *)

(** [shlex.quote] of the Python standard library: a token made only of
    ASCII word characters and [@%+=:,./-] is returned as it is, any other
    token is wrapped in single quotes, each embedded single quote being
    closed, double-quoted and reopened. *)
Module Shlex.

Definition is_word (c : ascii) : bool :=
  let n := nat_of_ascii c in
  (((97 <=? n) && (n <=? 122)) || ((65 <=? n) && (n <=? 90))
   || ((48 <=? n) && (n <=? 57)) || (n =? 95))%nat.

Definition is_safe (c : ascii) : bool :=
  is_word c || Str.contains c "@%+=:,./-".

Definition quote_escape : string :=
  String Str.SQUOTE (String Str.DQUOTE (String Str.SQUOTE
    (String Str.DQUOTE (String Str.SQUOTE EmptyString)))).

Definition quote (s : string) : string :=
  if Str.is_empty s then String Str.SQUOTE (String Str.SQUOTE EmptyString)
  else if Str.all is_safe s then s
  else String Str.SQUOTE EmptyString
         +:+ Str.replace Str.SQUOTE quote_escape s
         +:+ String Str.SQUOTE EmptyString.

End Shlex.

(** [os.path.join] on a POSIX system. *)
Module Posixpath.

Definition SEP : ascii := "/"%char.

Definition join_step (path b : string) : string :=
  if Str.startswith SEP b then b
  else if Str.is_empty path || Str.endswith SEP path then path +:+ b
  else path +:+ String SEP EmptyString +:+ b.

Definition join (a : string) (p : list string) : string :=
  fold_left join_step p a.

End Posixpath.

(** ** concourse/pipelines/model/step.py *)

Inductive ScriptType : Type := BOURNE_SHELL | PYTHON3.

Inductive StepNotificationPolicy : Type := NOTIFY_PULL_REQUESTS | NO_NOTIFICATION.

(** The value under ['depends']: the iterable of names the configuration
    gave, or the [set] that [custom_init] puts in its place. *)
Inductive depends_val : Type :=
| DependsList (l : list string)
| DependsSet (s : gset string).

(** The value under ['execute']: a list of tokens or any other scalar. *)
Inductive execute_val : Type :=
| ExecuteScalar (a : pyatom)
| ExecuteList (l : list pyatom).

(** The raw dictionary of a step, one optional entry per key the class
    reads; [None] is an absent key. *)
Record step_raw : Type := {
  raw_depends : option depends_val;
  raw_output_dir : option string;
  raw_image : option string;
  raw_execute : option execute_val;
  raw_registry : option string;
  raw_publish_to : option (list string);
}.

Definition empty_raw : step_raw :=
  {| raw_depends := None; raw_output_dir := None; raw_image := None;
     raw_execute := None; raw_registry := None; raw_publish_to := None |}.

Record PipelineStep : Type := {
  name : string;
  is_synthetic : bool;
  _script_type : ScriptType;
  _notification_policy : option StepNotificationPolicy;
  _outputs_dict : list (string * string);
  _inputs_dict : list (string * string);
  raw : step_raw;
}.

Definition with_outputs (o : list (string * string)) (self : PipelineStep) : PipelineStep :=
  {| name := name self; is_synthetic := is_synthetic self;
     _script_type := _script_type self;
     _notification_policy := _notification_policy self;
     _outputs_dict := o; _inputs_dict := _inputs_dict self; raw := raw self |}.

Definition with_inputs (i : list (string * string)) (self : PipelineStep) : PipelineStep :=
  {| name := name self; is_synthetic := is_synthetic self;
     _script_type := _script_type self;
     _notification_policy := _notification_policy self;
     _outputs_dict := _outputs_dict self; _inputs_dict := i; raw := raw self |}.

Definition with_depends (d : depends_val) (self : PipelineStep) : PipelineStep :=
  {| name := name self; is_synthetic := is_synthetic self;
     _script_type := _script_type self;
     _notification_policy := _notification_policy self;
     _outputs_dict := _outputs_dict self; _inputs_dict := _inputs_dict self;
     raw := {| raw_depends := Some d;
               raw_output_dir := raw_output_dir (raw self);
               raw_image := raw_image (raw self);
               raw_execute := raw_execute (raw self);
               raw_registry := raw_registry (raw self);
               raw_publish_to := raw_publish_to (raw self) |} |}.

(** Truth value of a string: non-empty. *)
Definition truthy (s : string) : bool := negb (Str.is_empty s).

Definition add_output (name_ variable_name : string) : M PipelineStep unit :=
  let* self := get in
  if Dict.mem name_ (_outputs_dict self)
  then raise (ValueError ("output already exists: " +:+ name_))
  else put (with_outputs (Dict.set name_ variable_name (_outputs_dict self)) self).

Definition add_input (name_ variable_name : string) : M PipelineStep unit :=
  let* self := get in
  if Dict.mem name_ (_inputs_dict self)
  then raise (ValueError ("input already exists: " +:+ name_))
  else put (with_inputs (Dict.set name_ variable_name (_inputs_dict self)) self).

(** [set(raw_dict['depends'])] *)
Definition to_set (d : depends_val) : gset string :=
  match d with
  | DependsList l => list_to_set l
  | DependsSet s => s
  end.

Definition custom_init : M PipelineStep unit :=
  let* self := get in
  (match raw_depends (raw self) with
   | None => put (with_depends (DependsSet {[ name self ]}) self)
   | Some d => put (with_depends (DependsSet (to_set d)) self)
   end) ;;;
  match raw_output_dir (raw self) with
  | Some n =>
      if truthy n then add_output (n +:+ "_path") (n +:+ "_path") else ret tt
  | None => ret tt
  end.

(** Modelled from the spec: the base-class initialiser [ModelBase.__init__]
    (module [concourse.pipelines.modelbase], not among the sources): it
    keeps the raw dictionary as [self.raw] and then calls [custom_init] on
    it.  [PipelineStep.__init__] sets its own attributes first; the
    [notification_policy] keyword, when a caller gives one, is forwarded to
    the base class. *)
Definition PipelineStep_init (name_ : string) (raw_dict : step_raw)
    (is_synthetic_ : bool) (script_type_ : ScriptType)
    (notification_policy_ : option StepNotificationPolicy) : res PipelineStep :=
  let self := {| name := name_; is_synthetic := is_synthetic_;
                 _script_type := script_type_;
                 _notification_policy := notification_policy_;
                 _outputs_dict := []; _inputs_dict := []; raw := raw_dict |} in
  match custom_init self with
  | (Ok _, self') => Ok self'
  | (Raise e, _) => Raise e
  end.

Definition script_type : M PipelineStep ScriptType :=
  let* self := get in ret (_script_type self).

Definition image : M PipelineStep (option string) :=
  let* self := get in ret (raw_image (raw self)).

Definition _argv : M PipelineStep (list string) :=
  let* self := get in
  match raw_execute (raw self) with
  | None => ret [py_str (AStr (name self))]
  | Some (ExecuteScalar a) => ret [py_str a]
  | Some (ExecuteList l) => ret (map (fun e => Shlex.quote (py_str e)) l)
  end.

(** The [prefix] argument: a string, or a sequence of path components. *)
Inductive prefix_arg : Type :=
| PrefixStr (s : string)
| PrefixSeq (l : list string).

Definition prefix_parts (prefix : prefix_arg) : list string :=
  match prefix with
  | PrefixStr s => [s]
  | PrefixSeq l => l
  end.

(** [os.path.join] applied to the components of [prefix] followed by [last]. *)
Definition path_join (prefix : list string) (last : string) : string :=
  match prefix with
  | [] => last
  | a :: p => Posixpath.join a (p ++ [last])
  end.

Definition executable (prefix : prefix_arg) : M PipelineStep string :=
  let* argv := _argv in
  match argv with
  | [] => raise IndexError
  | a0 :: _ => ret (path_join (prefix_parts prefix) a0)
  end.

Definition execute (prefix : prefix_arg) : M PipelineStep string :=
  let* argv := _argv in
  let* exe := executable prefix in
  match argv with
  | [] => raise IndexError
  | _ :: rest => ret (Str.join " " (exe :: rest))
  end.

Definition outputs : M PipelineStep (list (string * string)) :=
  let* self := get in ret (_outputs_dict self).

Definition inputs : M PipelineStep (list (string * string)) :=
  let* self := get in ret (_inputs_dict self).

Definition _add_dependency (step : PipelineStep) : M PipelineStep unit :=
  let* self := get in
  match raw_depends (raw self) with
  | None => raise (KeyError "depends")
  | Some (DependsSet s) => put (with_depends (DependsSet (s ∪ {[ name step ]})) self)
  | Some (DependsList _) => raise (AttributeError "add")
  end.

Definition depends : M PipelineStep (gset string) :=
  let* self := get in
  match raw_depends (raw self) with
  | None => raise (KeyError "depends")
  | Some d => ret (to_set d)
  end.

Definition ascii_letters : string :=
  "abcdefghijklmnopqrstuvwxyzABCDEFGHIJKLMNOPQRSTUVWXYZ".
Definition digits : string := "0123456789".
Definition allowed_characters : string := ascii_letters +:+ digits +:+ ".-_/:".

Definition validate : M PipelineStep unit :=
  let* img := image in
  match img with
  | Some image_reference =>
      if truthy image_reference then
        if negb (Str.all (fun c => Str.contains c allowed_characters) image_reference)
        then raise (ModelValidationError
                      ("forbidden character in image reference: " +:+ image_reference))
        else if negb (Str.contains ":" image_reference)
        then raise (ModelValidationError
                      ("image reference must contain colon charater:" +:+ image_reference))
        else ret tt
      else ret tt
  | None => ret tt
  end.

(** ** Objects held by reference *)

Definition ref : Type := nat.

Section Store.
Context {O : Type}.

(** A new object; its reference is the next free slot. *)
Definition alloc (o : O) : M (list O) ref :=
  fun h => (Ok (length h), h ++ [o]).

Definition deref (r : ref) : M (list O) O :=
  fun h => match h !! r with
           | Some o => (Ok o, h)
           | None => (Raise Dangling, h)
           end.

(** Run a method on the object behind [r]; the object keeps whatever the
    method did to it, also when it raises. *)
Definition at_ref {A} (r : ref) (m : M O A) : M (list O) A :=
  fun h => match h !! r with
           | Some o => let '(a, o') := m o in (a, <[r := o']> h)
           | None => (Raise Dangling, h)
           end.
End Store.

Fixpoint for_each {S A} (l : list A) (body : A -> M S unit) : M S unit :=
  match l with
  | [] => ret tt
  | x :: l' => body x ;;; for_each l' body
  end.

(** ** The job under composition *)

(** Modelled from the spec: the repository reference of section 3 (class
    [RepositoryConfig], not among the sources): logical name, branch, host,
    path, is-main flag, trigger flag, and whether it is the pull-request
    flavour. *)
Record RepositoryConfig : Type := {
  _logical_name : string;
  _branch : string;
  _hostname : string;
  _path : string;
  _is_main_repo : bool;
  _is_pull_request : bool;
  _trigger : bool;
}.

Definition with_trigger (b : bool) (r : RepositoryConfig) : RepositoryConfig :=
  {| _logical_name := _logical_name r; _branch := _branch r;
     _hostname := _hostname r; _path := _path r;
     _is_main_repo := _is_main_repo r;
     _is_pull_request := _is_pull_request r; _trigger := b |}.

Definition logical_name : M RepositoryConfig string :=
  let* self := get in ret (_logical_name self).

(** Modelled from the spec: the aggregate [JobVariant] of section 3 (module
    [concourse.model.job], not among the sources).  It owns the raw job
    configuration (a mapping of mappings), the step registry and the
    repositories by logical name, and knows the name of the main
    repository, as the set-up of [test/concourse/steps/notification_test.py]
    shows. *)
Record JobVariant : Type := {
  job_raw : list (string * pydict);
  _steps_dict : list (string * ref);
  _repos_dict : gmap string ref;
  _main_repository_name : option string;
}.

Definition with_repos (d : gmap string ref) (j : JobVariant) : JobVariant :=
  {| job_raw := job_raw j; _steps_dict := _steps_dict j; _repos_dict := d;
     _main_repository_name := _main_repository_name j |}.

(** The state of a composition: the step objects, the repository objects
    and the job that refers to them. *)
Record world : Type := {
  step_objs : list PipelineStep;
  repo_objs : list RepositoryConfig;
  job : JobVariant;
}.

Definition on_steps {A} (m : M (list PipelineStep) A) : M world A :=
  fun w => let '(a, h) := m (step_objs w) in
           (a, {| step_objs := h; repo_objs := repo_objs w; job := job w |}).

Definition on_repos {A} (m : M (list RepositoryConfig) A) : M world A :=
  fun w => let '(a, h) := m (repo_objs w) in
           (a, {| step_objs := step_objs w; repo_objs := h; job := job w |}).

Definition on_job {A} (m : M JobVariant A) : M world A :=
  fun w => let '(a, j) := m (job w) in
           (a, {| step_objs := step_objs w; repo_objs := repo_objs w; job := j |}).

(** Modelled from the spec: [JobVariant.steps()], the registered steps. *)
Definition steps : M JobVariant (list ref) :=
  let* self := get in ret (map snd (_steps_dict self)).

(** Modelled from the spec: [JobVariant.main_repository()], the repository
    registered under the main repository name, [None] without one. *)
Definition main_repository : M JobVariant (option ref) :=
  let* self := get in
  ret (n ← _main_repository_name self; _repos_dict self !! n).

(** Modelled from the spec: [JobVariant.pr_repository(name)], a new
    repository object that is the pull-request flavour of the repository
    registered under [name], for the same logical name. *)
Definition pr_repository (name_ : string) : M world ref :=
  let* self := on_job get in
  match _repos_dict self !! name_ with
  | None => raise (KeyError name_)
  | Some r =>
      let* repo := on_repos (deref r) in
      on_repos (alloc {| _logical_name := name_; _branch := _branch repo;
                         _hostname := _hostname repo; _path := _path repo;
                         _is_main_repo := _is_main_repo repo;
                         _is_pull_request := true;
                         _trigger := _trigger repo |})
  end.

(** ** concourse/model/traits/release.py *)

Module Release.

(** The transformer; [release_step] is an attribute only once
    [inject_steps] has run. *)
Record ReleaseTraitTransformer : Type := {
  release_step : option ref;
}.

Definition name : string := "release".

(** The generator is run to its end; the result is the transformer with
    its new attribute and the steps yielded. *)
Definition inject_steps (self : ReleaseTraitTransformer)
  : M world (ReleaseTraitTransformer * list ref) :=
  match PipelineStep_init "release" empty_raw true PYTHON3 (Some NO_NOTIFICATION) with
  | Raise e => raise e
  | Ok step =>
      let* r := on_steps (alloc step) in
      ret ({| release_step := Some r |}, [r])
  end.

(** [pipeline_args] is the job of the world. *)
Definition process_pipeline_args (self : ReleaseTraitTransformer) : M world unit :=
  let* all_steps := on_job steps in
  for_each all_steps (fun r =>
    let* step := on_steps (deref r) in
    match release_step self with
    | None => raise (AttributeError "release_step")
    | Some rel => on_steps (at_ref rel (_add_dependency step))
    end) ;;;
  let* main_repo := on_job main_repository in
  match main_repo with
  | Some main_ref =>
      let* pipeline_args := on_job get in
      match Dict.lookup "repo" (job_raw pipeline_args) with
      | None => raise (KeyError "repo")
      | Some repo_cfg =>
          if negb (Dict.mem "trigger" repo_cfg)
          then on_repos (at_ref main_ref (modify (with_trigger false)))
          else ret tt
      end
  | None => ret tt
  end.

Definition dependencies : gset string := {[ "version" ]}.
Definition order_dependencies : gset string := {[ "publish" ]}.

End Release.

(** ** concourse/model/traits/pullrequest.py *)

Module PullRequest.

Definition name : string := "pull-request".

Definition inject_steps : M world (list ref) :=
  match PipelineStep_init "rm_pr_label" empty_raw true PYTHON3 None with
  | Raise e => raise e
  | Ok rm_pr_label_step =>
      let* r := on_steps (alloc rm_pr_label_step) in
      ret [r]
  end.

Definition process_pipeline_args : M world unit :=
  let* main_repo := on_job main_repository in
  match main_repo with
  | None => raise (AttributeError "logical_name")
  | Some main_ref =>
      let* repo_name := on_repos (at_ref main_ref logical_name) in
      let* pr_repo := pr_repository repo_name in
      on_repos (at_ref pr_repo (modify (with_trigger true))) ;;;
      on_job (modify (fun j => with_repos (<[repo_name := pr_repo]> (_repos_dict j)) j))
  end.

End PullRequest.

(** ** util.py *)

Module Util.

(** [==] on scalars: a [bool] is the integer 0 or 1. *)
Definition atom_eq (a b : pyatom) : bool :=
  match a, b with
  | ANone, ANone => true
  | ABool x, ABool y => Bool.eqb x y
  | AInt x, AInt y => Z.eqb x y
  | ABool x, AInt y | AInt y, ABool x => Z.eqb y (if x then 1 else 0)
  | AStr x, AStr y => String.eqb x y
  | _, _ => false
  end.

(** [==] on values: lists by position, mappings by key. *)
Fixpoint py_eq (a b : pyval) {struct a} : bool :=
  match a, b with
  | PyAtom x, PyAtom y => atom_eq x y
  | PyList l, PyList m =>
      (fix all2 (l m : list pyval) {struct l} : bool :=
         match l, m with
         | [], [] => true
         | x :: l', y :: m' => py_eq x y && all2 l' m'
         | _, _ => false
         end) l m
  | PyDict d, PyDict e =>
      Nat.eqb (length d) (length e)
      && (fix each (d : list (string * pyval)) : bool :=
            match d with
            | [] => true
            | (k, v) :: d' =>
                match Dict.lookup k e with
                | Some w => py_eq v w
                | None => false
                end && each d'
            end) d
  | _, _ => false
  end.

(** [e in l] *)
Definition py_in (e : pyval) (l : list pyval) : bool :=
  existsb (fun x => py_eq x e) l.

(** [isinstance(base, type(nxt)) or isinstance(nxt, type(base))] *)
Definition type_compatible (base nxt : pyval) : bool :=
  match base, nxt with
  | PyAtom ANone, PyAtom ANone => true
  | PyAtom (ABool _ | AInt _), PyAtom (ABool _ | AInt _) => true
  | PyAtom (AStr _), PyAtom (AStr _) => true
  | PyList _, PyList _ => true
  | PyDict _, PyDict _ => true
  | _, _ => false
  end.

(** The list strategy that [merge_dicts] installs:
    [list(base) + [e for e in other if e not in base]]. *)
Definition list_merge (base other : list pyval) : list pyval :=
  base ++ List.filter (fun e => negb (py_in e base)) other.

(** [Merger.value_strategy] of the [deepmerge] package, for a merger with
    the strategies [merge_dicts] configures: the type-conflict and
    fallback strategies are both [override] (the value of [nxt]), a
    mapping is merged key by key into [base], and a list is merged by
    [list_merge] when [lists] is set and overridden otherwise. *)
Fixpoint value_strategy (lists : bool) (base nxt : pyval) {struct nxt} : pyval :=
  if negb (type_compatible base nxt) then nxt
  else match nxt with
       | PyAtom _ => nxt
       | PyList other =>
           match base with
           | PyList b => if lists then PyList (list_merge b other) else nxt
           | _ => nxt
           end
       | PyDict other =>
           match base with
           | PyDict b =>
               PyDict
                 ((fix dict_merge (other : list (string * pyval))
                       (base : list (string * pyval)) {struct other} :=
                     match other with
                     | [] => base
                     | (k, v) :: other' =>
                         match Dict.lookup k base with
                         | None => dict_merge other' (Dict.set k v base)
                         | Some bv =>
                             dict_merge other'
                               (Dict.set k (value_strategy lists bv v) base)
                         end
                     end) other b)
           | _ => nxt
           end
       end.

(** The mapping strategy on its own, as the equations of [value_strategy]
    unfold it. *)
Fixpoint dict_merge (lists : bool) (other base : list (string * pyval))
  : list (string * pyval) :=
  match other with
  | [] => base
  | (k, v) :: other' =>
      match Dict.lookup k base with
      | None => dict_merge lists other' (Dict.set k v base)
      | Some bv => dict_merge lists other' (Dict.set k (value_strategy lists bv v) base)
      end
  end.

Inductive list_semantics : Type :=
| LsMerge
| LsNone
| LsOther (s : string).

Definition not_none (value : pyval) : res pyval :=
  match value with
  | PyAtom ANone => Raise Failure
  | _ => Ok value
  end.

(** The arguments are copied before the merge, so they stay as they are:
    with values instead of objects there is nothing to copy. *)
Definition merge_dicts (base other : pyval) (ls : list_semantics) : res pyval :=
  match not_none base with
  | Raise e => Raise e
  | Ok _ =>
      match not_none other with
      | Raise e => Raise e
      | Ok _ =>
          match ls with
          | LsMerge => Ok (value_strategy true base other)
          | LsNone => Ok (value_strategy false base other)
          | LsOther _ => Raise NotImplementedError
          end
      end
  end.

(** [check_type(instance, str)] *)
Definition check_type_str (instance : pyval) : res string :=
  match instance with
  | PyAtom (AStr s) => Ok s
  | _ => Raise Failure
  end.

End Util.

(** ** container/registry.py *)

Module Registry.

Definition normalise_image_reference (image_reference : pyval) : res string :=
  match Util.check_type_str image_reference with
  | Raise e => Raise e
  | Ok image_reference =>
      if Str.contains "@" image_reference then Ok image_reference
      else
        let parts := Str.split "/" image_reference in
        match parts with
        | [] => Raise IndexError
        | left_part :: _ =>
            match Str.split ":" left_part with
            | [] => Raise IndexError
            | host :: _ =>
                let parts :=
                  if negb (Str.contains "." host) then
                    let parts :=
                      if Nat.eqb (length parts) 1 then "library" :: parts else parts in
                    "registry-1.docker.io" :: parts
                  else parts in
                Ok (Str.join "/" parts)
            end
        end
  end.

End Registry.

(** ** concourse/pipelines/model/step.py: the remaining accessors *)

Definition registry : M PipelineStep (option string) :=
  let* self := get in ret (raw_registry (raw self)).

(** For historical reasons the output directory carries the suffix
    [_path]. *)
Definition output_dir : M PipelineStep (option string) :=
  let* self := get in
  match raw_output_dir (raw self) with
  | None => ret None
  | Some d => ret (Some (d +:+ "_path"))
  end.

Definition output (name_ : string) : M PipelineStep string :=
  let* o := outputs in
  match Dict.lookup name_ o with
  | Some v => ret v
  | None => raise (KeyError name_)
  end.

Definition input (name_ : string) : M PipelineStep string :=
  let* i := inputs in
  match Dict.lookup name_ i with
  | Some v => ret v
  | None => raise (KeyError name_)
  end.

Definition publish_repository_names : M PipelineStep (list string) :=
  let* self := get in
  match raw_publish_to (raw self) with
  | Some l => ret l
  | None => ret []
  end.

(** ** util.py: strings and streams *)

Module UtilStr.

(** [s.lstrip(c)], [s.rstrip(c)] and [s.strip(c)] for a one-character [c]. *)
Fixpoint lstrip (c : ascii) (s : string) : string :=
  match s with
  | EmptyString => EmptyString
  | String d s' => if Ascii.eqb d c then lstrip c s' else s
  end.

Fixpoint rstrip (c : ascii) (s : string) : string :=
  match s with
  | EmptyString => EmptyString
  | String d s' =>
      let r := rstrip c s' in
      if Ascii.eqb d c && Str.is_empty r then EmptyString else String d r
  end.

Definition strip (c : ascii) (s : string) : string := rstrip c (lstrip c s).

(** [parts[1:-1]] and [parts[-1]] of a list that has a first element. *)
Definition middle_and_last (first : string) (rest : list string)
  : list string * string :=
  match rest with
  | [] => ([], first)
  | _ => (removelast rest, List.last rest first)
  end.

Definition urljoin (parts : list string) : res string :=
  match parts with
  | [p] => Ok p
  | [] => Raise IndexError
  | first :: rest =>
      let '(middle, last) := middle_and_last first rest in
      let first := rstrip "/" first in
      let middle := map (strip "/") middle in
      let last := lstrip "/" last in
      Ok (Str.join "/" ([first] ++ middle ++ [last]))
  end.

Definition ascii_lowercase : string := "abcdefghijklmnopqrstuvwxyz".

(** [random.choice(string.ascii_lowercase)], the random index taken from
    the draw [i]. *)
Definition choice (i : nat) : ascii :=
  match String.get (i mod 26) ascii_lowercase with
  | Some c => c
  | None => "a"%char
  end.

(** [''.join(random.choice(...) for _ in range(n))], the draws coming
    from [draws] in turn. *)
Fixpoint random_chars (draws : nat -> nat) (k n : nat) : string :=
  match n with
  | O => EmptyString
  | S n' => String (choice (draws k)) (random_chars draws (S k) n')
  end.

(** [random_str]: the source of randomness is the sequence [draws]; a
    [prefix] of [None] is the default. *)
Definition random_str (draws : nat -> nat) (prefix : option string) (length_ : Z)
  : string :=
  match prefix with
  | Some p =>
      if truthy p
      then p +:+ random_chars draws 0 (Z.to_nat (length_ - Z.of_nat (String.length p)))
      else random_chars draws 0 (Z.to_nat length_)
  | None => random_chars draws 0 (Z.to_nat length_)
  end.

End UtilStr.

(** [FluentIterable]: a chain of stream operations, each reading the output
    of the one before.  A generator is the list of what it yields; [items]
    can be iterated any number of times; an operation keeps the element
    type. *)
Module Fluent.
Section Fluent.
Context {A : Type}.

Record FluentIterable : Type := { ops : list (unit -> list A) }.

Definition init (items : list A) : FluentIterable :=
  {| ops := [fun _ => items] |}.

(** [self.ops[-1]] *)
Definition last_op : M FluentIterable (unit -> list A) :=
  let* self := get in
  match List.last (map Some (ops self)) None with
  | Some op => ret op
  | None => raise IndexError
  end.

Definition append_op (op : unit -> list A) : M FluentIterable unit :=
  modify (fun self => {| ops := ops self ++ [op] |}).

Definition filter (filter_func : A -> bool) : M FluentIterable unit :=
  let* last := last_op in
  append_op (fun _ => List.filter filter_func (last tt)).

Definition map (map_func : A -> A) : M FluentIterable unit :=
  let* last := last_op in
  append_op (fun _ => List.map map_func (last tt)).

Definition as_generator : M FluentIterable (list A) :=
  let* last := last_op in ret (last tt).

(** A chained call. *)
Inductive stage : Type :=
| Filter (filter_func : A -> bool)
| Map (map_func : A -> A).

Definition call (s : stage) : M FluentIterable unit :=
  match s with
  | Filter f => filter f
  | Map g => map g
  end.

Definition run_stage (items : list A) (s : stage) : list A :=
  match s with
  | Filter f => List.filter f items
  | Map g => List.map g items
  end.

End Fluent.
End Fluent.

(** ** Sample inputs and the wording of the specification *)

Definition step0 : PipelineStep :=
  {| name := "compile"; is_synthetic := false; _script_type := BOURNE_SHELL;
     _notification_policy := None;
     _outputs_dict := [("bin", "BIN_PATH")]; _inputs_dict := [];
     raw := empty_raw |}.

(** The character class of the specification: ASCII letters, digits and
    the five punctuation marks. *)
Definition spec_allowed (c : ascii) : bool :=
  let n := nat_of_ascii c in
  (((97 <=? n) && (n <=? 122)) || ((65 <=? n) && (n <=? 90))
   || ((48 <=? n) && (n <=? 57))
   || (n =? 46) || (n =? 45) || (n =? 95) || (n =? 47) || (n =? 58))%nat.

Definition step_with_image (img : option string) : PipelineStep :=
  {| name := "compile"; is_synthetic := false; _script_type := BOURNE_SHELL;
     _notification_policy := None; _outputs_dict := []; _inputs_dict := [];
     raw := {| raw_depends := Some (DependsSet {[ "compile" ]});
               raw_output_dir := None; raw_image := img;
               raw_execute := None; raw_registry := None;
               raw_publish_to := None |} |}.

(** The execution line as section 4.1 of the specification words it: the
    step's own name when nothing is declared; otherwise every declared
    token shell-escaped, the first one replaced by the step's own name,
    path-prefixed, and the tokens joined by spaces. *)
Definition spec_execution_line (self : PipelineStep) (prefix : prefix_arg) : string :=
  let own := path_join (prefix_parts prefix) (name self) in
  match raw_execute (raw self) with
  | None => own
  | Some (ExecuteScalar a) => own
  | Some (ExecuteList l) =>
      Str.join " " (own :: tl (map (fun e => Shlex.quote (py_str e)) l))
  end.

Definition step_with_execute (e : option execute_val) : PipelineStep :=
  {| name := "build"; is_synthetic := false; _script_type := BOURNE_SHELL;
     _notification_policy := None; _outputs_dict := []; _inputs_dict := [];
     raw := {| raw_depends := Some (DependsSet {[ "build" ]});
               raw_output_dir := None; raw_image := None;
               raw_execute := e; raw_registry := None;
               raw_publish_to := None |} |}.

(** Every registered step is an object of the store. *)
Definition steps_registered (w : world) : Prop :=
  Forall (fun r => is_Some (step_objs w !! r)) (map snd (_steps_dict (job w))).

(** The reference that [main_repository()] returns in [w]. *)
Definition main_repository_of (w : world) : option ref :=
  n ← _main_repository_name (job w); _repos_dict (job w) !! n.

(** With a main repository, it is an object of the store and the raw job
    configuration has its ['repo'] entry. *)
Definition repos_ready (w : world) : Prop :=
  match main_repository_of w with
  | None => True
  | Some r => is_Some (repo_objs w !! r)
              /\ is_Some (Dict.lookup "repo" (job_raw (job w)))
  end.

(** A job with the explicit step [compile], the injected step [release],
    and a main repository [source] whose raw configuration is [repo_cfg]. *)
Definition sample_release_step : PipelineStep :=
  {| name := "release"; is_synthetic := true; _script_type := PYTHON3;
     _notification_policy := Some NO_NOTIFICATION;
     _outputs_dict := []; _inputs_dict := [];
     raw := {| raw_depends := Some (DependsSet {[ "release" ]});
               raw_output_dir := None; raw_image := None;
               raw_execute := None; raw_registry := None;
               raw_publish_to := None |} |}.

Definition sample_repo : RepositoryConfig :=
  {| _logical_name := "source"; _branch := "master";
     _hostname := "github.com"; _path := "org/repo";
     _is_main_repo := true; _is_pull_request := false; _trigger := true |}.

Definition sample_world (repo_cfg : pydict) : world :=
  {| step_objs := [step_with_image None; sample_release_step];
     repo_objs := [sample_repo];
     job := {| job_raw := [("repo", repo_cfg)];
               _steps_dict := [("compile", 0); ("release", 1)];
               _repos_dict := {[ "source" := 0 ]};
               _main_repository_name := Some "source" |} |}.

Definition sample_transformer : Release.ReleaseTraitTransformer :=
  {| Release.release_step := Some 1 |}.

(** Trait defaults and a user configuration to merge. *)
Definition sample_defaults : pydict :=
  [("policies", PyDict [("require-label", PyAtom (AStr "reviewed/ok-to-test"));
                        ("replacement-label", PyAtom (AStr "needs/ok-to-test"))]);
   ("channels", PyList [PyAtom (AStr "dev"); PyAtom (AStr "qa")]);
   ("retries", PyAtom (AInt 3))].

Definition sample_user_config : pydict :=
  [("retries", PyAtom (AInt 5));
   ("channels", PyList [PyAtom (AStr "qa"); PyAtom (AStr "prod")]);
   ("policies", PyDict [("require-label", PyAtom (AStr "lgtm"))]);
   ("notify", PyAtom (ABool true))].

(** The names of the steps that the references [l] point to in [h]. *)
Definition step_names (h : list PipelineStep) (l : list ref) : gset string :=
  list_to_set (omap (fun r => name <$> h !! r) l).

(** What [process_pipeline_args] of the release transformer comes to, when
    the transformer's step is the object [o] behind [rel], with dependency
    set [d]: the outcome and the world it leaves. *)
Definition release_outcome (rel : ref) (o : PipelineStep) (d : gset string)
    (w : world) : res unit * world :=
  let all_names := step_names (step_objs w) (map snd (_steps_dict (job w))) in
  let h' := <[rel := with_depends (DependsSet (d ∪ all_names)) o]> (step_objs w) in
  match main_repository_of w with
  | None => (Ok tt, {| step_objs := h'; repo_objs := repo_objs w; job := job w |})
  | Some main_ref =>
      match Dict.lookup "repo" (job_raw (job w)) with
      | None => (Raise (KeyError "repo"),
                 {| step_objs := h'; repo_objs := repo_objs w; job := job w |})
      | Some repo_cfg =>
          if Dict.mem "trigger" repo_cfg
          then (Ok tt, {| step_objs := h'; repo_objs := repo_objs w; job := job w |})
          else match repo_objs w !! main_ref with
               | Some m =>
                   (Ok tt, {| step_objs := h';
                              repo_objs := <[main_ref := with_trigger false m]>
                                             (repo_objs w);
                              job := job w |})
               | None => (Raise Dangling,
                          {| step_objs := h'; repo_objs := repo_objs w;
                             job := job w |})
               end
      end
  end.

(** The repository object that the pull-request transformer registers in
    place of the main repository [m]. *)
Definition pull_request_variant (m : RepositoryConfig) : RepositoryConfig :=
  {| _logical_name := _logical_name m; _branch := _branch m;
     _hostname := _hostname m; _path := _path m;
     _is_main_repo := _is_main_repo m; _is_pull_request := true;
     _trigger := true |}.

(** A value as Python can hold it: the keys of every mapping, at any depth,
    are distinct. *)
Fixpoint wf_val (v : pyval) : Prop :=
  match v with
  | PyAtom _ => True
  | PyList l =>
      (fix all (l : list pyval) : Prop :=
         match l with
         | [] => True
         | x :: l' => wf_val x /\ all l'
         end) l
  | PyDict d =>
      NoDup (Dict.keys d)
      /\ (fix all (d : list (string * pyval)) : Prop :=
            match d with
            | [] => True
            | (_, x) :: d' => wf_val x /\ all d'
            end) d
  end.

(** Induction on values, through lists and mappings. *)
Section PyvalInd.
Variable P : pyval -> Prop.
Hypothesis Hatom : forall a, P (PyAtom a).
Hypothesis Hlist : forall l, Forall P l -> P (PyList l).
Hypothesis Hdict : forall d, Forall (fun kv => P (snd kv)) d -> P (PyDict d).

Fixpoint pyval_nested_ind (v : pyval) : P v :=
  match v with
  | PyAtom a => Hatom a
  | PyList l =>
      Hlist l ((fix go (l : list pyval) : Forall P l :=
                  match l with
                  | [] => @List.Forall_nil _ P
                  | x :: l' => @List.Forall_cons _ P x l' (pyval_nested_ind x) (go l')
                  end) l)
  | PyDict d =>
      Hdict d ((fix go (d : list (string * pyval))
                  : Forall (fun kv => P (snd kv)) d :=
                  match d with
                  | [] => @List.Forall_nil _ (fun kv => P (snd kv))
                  | kv :: d' =>
                      @List.Forall_cons _ (fun kv => P (snd kv)) kv d'
                        (pyval_nested_ind (snd kv)) (go d')
                  end) d)
  end.
End PyvalInd.

(** The host part of an image reference: what precedes the first ['/'] and,
    within that, the first [':']. *)
Definition reference_host (image_reference : string) : string :=
  hd EmptyString (Str.split ":" (hd EmptyString (Str.split "/" image_reference))).

(** The list merge in the specification's words, concatenated and then
    deduplicated: the elements of the default list followed by those of the
    user's list, each kept at its first occurrence only. *)
Fixpoint dedup_from (seen l : list pyval) : list pyval :=
  match l with
  | [] => []
  | x :: l' =>
      if Util.py_in x seen then dedup_from seen l'
      else x :: dedup_from (seen ++ [x]) l'
  end.

Definition spec_list_merge (base other : list pyval) : list pyval :=
  dedup_from [] (base ++ other).

(** No element of [l] equals a later one. *)
Fixpoint no_repeats (l : list pyval) : bool :=
  match l with
  | [] => true
  | x :: l' => negb (existsb (fun y => Util.py_eq x y) l') && no_repeats l'
  end.

(** Defaults and a user configuration whose list names an element twice. *)
Definition repeated_defaults : pydict :=
  [("channels", PyList [PyAtom (AStr "dev")])].

Definition repeated_user_config : pydict :=
  [("channels", PyList [PyAtom (AStr "prod"); PyAtom (AStr "prod")])].

(** A raw step configuration that declares an empty ['depends'] list. *)
Definition raw_empty_depends : step_raw :=
  {| raw_depends := Some (DependsList []); raw_output_dir := None;
     raw_image := None; raw_execute := None; raw_registry := None;
     raw_publish_to := None |}.

(** * Properties *)

(** ** Monad and dictionary facts *)

Ltac unfold_m :=
  unfold bind, ret, raise, get, put, modify in *.

Lemma dict_set_fresh {V} (k : string) (v : V) (d : list (string * V)) :
  Dict.mem k d = false -> Dict.set k v d = d ++ [(k, v)].
Proof.
  unfold Dict.mem. induction d as [|[k' v'] d IH]; simpl; [done|].
  destruct (String.eqb k k'); [done|].
  intros H. by rewrite IH.
Qed.

Lemma dict_lookup_set_eq {V} (k : string) (v : V) (d : list (string * V)) :
  Dict.lookup k (Dict.set k v d) = Some v.
Proof.
  induction d as [|[k' v'] d IH]; simpl.
  - by rewrite String.eqb_refl.
  - destruct (String.eqb k k') eqn:E; simpl; rewrite E; [done|apply IH].
Qed.

Lemma dict_lookup_set_ne {V} (k k0 : string) (v : V) (d : list (string * V)) :
  k0 <> k -> Dict.lookup k0 (Dict.set k v d) = Dict.lookup k0 d.
Proof.
  intros Hne. induction d as [|[k' v'] d IH]; simpl.
  - by destruct (String.eqb_spec k0 k).
  - destruct (String.eqb_spec k k') as [<-|]; simpl.
    + by destruct (String.eqb_spec k0 k).
    + by rewrite IH.
Qed.

(** ** Steps: slots *)

(** C4: [add_output] (and likewise [add_input]) raises if and only if the
    name is already a key of the step's output (input) mapping, and then
    leaves the step as it was; otherwise it succeeds, the mapping gains
    the one entry name -> variable at its end, and every other attribute of
    the step is unchanged.  The exception the code raises for a duplicate
    slot is [ValueError] with the message ['output already exists: '] (or
    ['input already exists: ']) followed by the name. *)
Theorem add_slot_spec (self : PipelineStep) (n v : string) :
  (((exists e, fst (add_output n v self) = Raise e)
    <-> Dict.mem n (_outputs_dict self) = true)
   /\ (Dict.mem n (_outputs_dict self) = true ->
       add_output n v self
       = (Raise (ValueError ("output already exists: " +:+ n)), self))
   /\ (Dict.mem n (_outputs_dict self) = false ->
       exists self',
         add_output n v self = (Ok tt, self')
         /\ _outputs_dict self' = _outputs_dict self ++ [(n, v)]
         /\ Dict.lookup n (_outputs_dict self') = Some v
         /\ _inputs_dict self' = _inputs_dict self
         /\ name self' = name self /\ is_synthetic self' = is_synthetic self
         /\ _script_type self' = _script_type self
         /\ _notification_policy self' = _notification_policy self
         /\ raw self' = raw self))
  /\
  (((exists e, fst (add_input n v self) = Raise e)
    <-> Dict.mem n (_inputs_dict self) = true)
   /\ (Dict.mem n (_inputs_dict self) = true ->
       add_input n v self
       = (Raise (ValueError ("input already exists: " +:+ n)), self))
   /\ (Dict.mem n (_inputs_dict self) = false ->
       exists self',
         add_input n v self = (Ok tt, self')
         /\ _inputs_dict self' = _inputs_dict self ++ [(n, v)]
         /\ Dict.lookup n (_inputs_dict self') = Some v
         /\ _outputs_dict self' = _outputs_dict self
         /\ name self' = name self /\ is_synthetic self' = is_synthetic self
         /\ _script_type self' = _script_type self
         /\ _notification_policy self' = _notification_policy self
         /\ raw self' = raw self)).
Proof.
  split.
  - unfold add_output. unfold_m.
    destruct (Dict.mem n (_outputs_dict self)) eqn:E; simpl.
    + split; [split; eauto|]. split; [done|]. intros; discriminate.
    + split; [split; [intros [e He]; discriminate|discriminate]|].
      split; [discriminate|]. intros _. eexists; split; [reflexivity|]. simpl.
      rewrite dict_lookup_set_eq, (dict_set_fresh _ _ _ E). done.
  - unfold add_input. unfold_m.
    destruct (Dict.mem n (_inputs_dict self)) eqn:E; simpl.
    + split; [split; eauto|]. split; [done|]. intros; discriminate.
    + split; [split; [intros [e He]; discriminate|discriminate]|].
      split; [discriminate|]. intros _. eexists; split; [reflexivity|]. simpl.
      rewrite dict_lookup_set_eq, (dict_set_fresh _ _ _ E). done.
Qed.

Lemma add_slot_spec_witness :
  add_output "bin" "B" step0
    = (Raise (ValueError "output already exists: bin"), step0)
  /\ (exists s, add_output "lib" "LIB_PATH" step0 = (Ok tt, s)
                /\ _outputs_dict s = [("bin", "BIN_PATH"); ("lib", "LIB_PATH")])
  /\ (exists s, add_input "src" "SRC" step0 = (Ok tt, s)
                /\ _inputs_dict s = [("src", "SRC")]).
Proof.
  split; [|split].
  - apply (proj1 (proj2 (proj1 (add_slot_spec step0 "bin" "B")))). reflexivity.
  - destruct (proj2 (proj2 (proj1 (add_slot_spec step0 "lib" "LIB_PATH"))) eq_refl)
      as (s & Hrun & Hout & _).
    exists s. split; [exact Hrun | exact Hout].
  - destruct (proj2 (proj2 (proj2 (add_slot_spec step0 "src" "SRC"))) eq_refl)
      as (s & Hrun & Hin & _).
    exists s. split; [exact Hrun | exact Hin].
Defined.

(** ** Steps: validation *)

Lemma allowed_characters_spec (c : ascii) :
  Str.contains c allowed_characters = spec_allowed c.
Proof. destruct c as [[] [] [] [] [] [] [] []]; reflexivity. Qed.

Lemma all_allowed_spec (s : string) :
  Str.all (fun c => Str.contains c allowed_characters) s = Str.all spec_allowed s.
Proof.
  induction s as [|c s IH]; [done|].
  cbn [Str.all]. by rewrite IH, allowed_characters_spec.
Qed.

Lemma truthy_nonempty (s : string) : truthy s = true <-> s <> EmptyString.
Proof. unfold truthy. destruct s; simpl; split; congruence. Qed.

(** C3, as the code has it: a step without an image, or with the empty
    string as its image, passes [validate]; for a non-empty image
    reference [validate] raises [ModelValidationError] when some character
    is outside the allowed class, raises it as well when all characters
    are allowed but there is no colon, and succeeds otherwise.  The step
    is left as it was in every case. *)
Theorem validate_spec (self : PipelineStep) :
  (raw_image (raw self) = None -> validate self = (Ok tt, self))
  /\ (raw_image (raw self) = Some EmptyString -> validate self = (Ok tt, self))
  /\ (forall image_reference,
        raw_image (raw self) = Some image_reference ->
        image_reference <> EmptyString ->
        (Str.all spec_allowed image_reference = false ->
         validate self
         = (Raise (ModelValidationError
                     ("forbidden character in image reference: " +:+ image_reference)),
            self))
        /\ (Str.all spec_allowed image_reference = true ->
            Str.contains ":" image_reference = false ->
            validate self
            = (Raise (ModelValidationError
                        ("image reference must contain colon charater:"
                           +:+ image_reference)),
               self))
        /\ (Str.all spec_allowed image_reference = true ->
            Str.contains ":" image_reference = true ->
            validate self = (Ok tt, self))).
Proof.
  unfold validate, image. unfold_m.
  split; [|split].
  - by intros ->.
  - by intros ->.
  - intros ref -> Hne. apply truthy_nonempty in Hne. rewrite Hne.
    rewrite all_allowed_spec.
    repeat split.
    + by intros ->.
    + by intros -> ->.
    + by intros -> ->.
Qed.

Lemma validate_spec_witness :
  validate (step_with_image None) = (Ok tt, step_with_image None)
  /\ validate (step_with_image (Some "alpine 3"))
     = (Raise (ModelValidationError
                 "forbidden character in image reference: alpine 3"),
        step_with_image (Some "alpine 3"))
  /\ validate (step_with_image (Some "alpine"))
     = (Raise (ModelValidationError
                 "image reference must contain colon charater:alpine"),
        step_with_image (Some "alpine"))
  /\ validate (step_with_image (Some "eu.gcr.io/x/alpine:3.7"))
     = (Ok tt, step_with_image (Some "eu.gcr.io/x/alpine:3.7")).
Proof.
  split; [|split; [|split]].
  - apply (proj1 (validate_spec (step_with_image None))). reflexivity.
  - apply (proj1 (proj2 (proj2 (validate_spec (step_with_image (Some "alpine 3"))))
                   "alpine 3" eq_refl ltac:(discriminate))).
    reflexivity.
  - apply (proj1 (proj2 (proj2 (proj2 (validate_spec (step_with_image (Some "alpine"))))
                   "alpine" eq_refl ltac:(discriminate)))); reflexivity.
  - apply (proj2 (proj2 (proj2 (proj2 (validate_spec
                   (step_with_image (Some "eu.gcr.io/x/alpine:3.7"))))
                   "eu.gcr.io/x/alpine:3.7" eq_refl ltac:(discriminate))));
      reflexivity.
Defined.

(** C3 as stated fails for the empty image reference: it is declared and
    contains no colon, yet [validate] succeeds. *)
Lemma validate_empty_image_counterexample :
  raw_image (raw (step_with_image (Some EmptyString))) = Some EmptyString
  /\ Str.contains ":" EmptyString = false
  /\ validate (step_with_image (Some EmptyString))
     = (Ok tt, step_with_image (Some EmptyString)).
Proof. repeat split. Qed.

(** C9: [validate] leaves the step as it was, so running it again on the
    step it returns gives the same outcome, success or the same error. *)
Theorem validate_idempotent (self : PipelineStep) :
  snd (validate self) = self
  /\ validate (snd (validate self)) = validate self.
Proof.
  assert (H : snd (validate self) = self).
  { unfold validate, image. unfold_m.
    destruct (raw_image (raw self)) as [ref|]; [|done].
    destruct (truthy ref); [|done].
    destruct (negb _); [done|]. by destruct (negb _). }
  split; [done|]. by rewrite H.
Qed.

(** ** Steps: the execution line *)

Lemma path_join_no_prefix (x : string) :
  path_join (prefix_parts (PrefixStr EmptyString)) x = x.
Proof.
  unfold path_join, prefix_parts, Posixpath.join, Posixpath.join_step. simpl.
  by destruct (Str.startswith Posixpath.SEP x).
Qed.

(** C2, as the code has it: without an ['execute'] entry the execution
    line is the step's own name, path-prefixed; a non-list ['execute']
    value is the command as it stands, path-prefixed and not escaped; for
    a non-empty list every token is shell-escaped on its own, the first
    escaped token (not the step's name) is path-prefixed, and the line is
    the tokens joined by single spaces.  The default prefix, the empty
    string, adds nothing.  The step is not changed. *)
Theorem execute_spec (self : PipelineStep) (prefix : prefix_arg) :
  (raw_execute (raw self) = None ->
   execute prefix self = (Ok (path_join (prefix_parts prefix) (name self)), self))
  /\ (forall a, raw_execute (raw self) = Some (ExecuteScalar a) ->
      execute prefix self = (Ok (path_join (prefix_parts prefix) (py_str a)), self))
  /\ (forall t ts, raw_execute (raw self) = Some (ExecuteList (t :: ts)) ->
      execute prefix self
      = (Ok (Str.join " "
               (path_join (prefix_parts prefix) (Shlex.quote (py_str t))
                  :: map (fun e => Shlex.quote (py_str e)) ts)),
         self))
  /\ (forall x, path_join (prefix_parts (PrefixStr EmptyString)) x = x).
Proof.
  destruct self as [n syn st np outs ins [dep odir img exe reg pub]].
  split; [|split; [|split]]; simpl.
  - by intros ->.
  - by intros a ->.
  - by intros t ts ->.
  - apply path_join_no_prefix.
Qed.

Lemma execute_spec_witness :
  execute (PrefixStr "bin") (step_with_execute None)
    = (Ok "bin/build", step_with_execute None)
  /\ execute (PrefixStr "bin") (step_with_execute (Some (ExecuteScalar (AStr "run me"))))
     = (Ok "bin/run me", step_with_execute (Some (ExecuteScalar (AStr "run me"))))
  /\ execute (PrefixStr "bin")
       (step_with_execute (Some (ExecuteList [AStr "make"; AStr "all targets"])))
     = (Ok ("bin/make " +:+ String Str.SQUOTE "all targets" +:+ String Str.SQUOTE EmptyString),
        step_with_execute (Some (ExecuteList [AStr "make"; AStr "all targets"]))).
Proof.
  split; [|split].
  - apply (proj1 (execute_spec (step_with_execute None) (PrefixStr "bin"))).
    reflexivity.
  - apply (proj1 (proj2 (execute_spec
             (step_with_execute (Some (ExecuteScalar (AStr "run me"))))
             (PrefixStr "bin"))) (AStr "run me")).
    reflexivity.
  - apply (proj1 (proj2 (proj2 (execute_spec
             (step_with_execute (Some (ExecuteList [AStr "make"; AStr "all targets"])))
             (PrefixStr "bin")))) (AStr "make") [AStr "all targets"]).
    reflexivity.
Defined.

(** C2 as stated fails when a command is declared: the first token of the
    line is the declared one, not the step's own name. *)
Lemma execute_counterexample :
  execute (PrefixStr EmptyString)
    (step_with_execute (Some (ExecuteList [AStr "make"; AStr "all"])))
  = (Ok "make all", step_with_execute (Some (ExecuteList [AStr "make"; AStr "all"])))
  /\ spec_execution_line
       (step_with_execute (Some (ExecuteList [AStr "make"; AStr "all"])))
       (PrefixStr EmptyString)
     = "build all"
  /\ fst (execute (PrefixStr EmptyString)
            (step_with_execute (Some (ExecuteList [AStr "make"; AStr "all"]))))
     <> Ok (spec_execution_line
              (step_with_execute (Some (ExecuteList [AStr "make"; AStr "all"])))
              (PrefixStr EmptyString)).
Proof. repeat split. vm_compute. discriminate. Qed.

(** ** Steps: the default dependency *)

Lemma init_without_depends (name_ : string) (raw_dict : step_raw)
    (syn : bool) (st : ScriptType) (np : option StepNotificationPolicy) :
  raw_depends raw_dict = None ->
  exists self,
    PipelineStep_init name_ raw_dict syn st np = Ok self
    /\ name self = name_
    /\ raw_depends (raw self) = Some (DependsSet {[ name_ ]}).
Proof.
  intros Hd. unfold PipelineStep_init, custom_init, add_output. unfold_m.
  simpl. rewrite Hd. simpl.
  destruct (raw_output_dir raw_dict) as [n|]; [|eauto].
  destruct (truthy n); simpl; eauto.
Qed.

Lemma add_dependency_set (self other : PipelineStep) (d : gset string) :
  raw_depends (raw self) = Some (DependsSet d) ->
  _add_dependency other self
  = (Ok tt, with_depends (DependsSet (d ∪ {[ name other ]})) self).
Proof. intros H. unfold _add_dependency. unfold_m. by rewrite H. Qed.

(** X26: a step built from a raw configuration without a ['depends'] entry
    has exactly its own name as its dependency set, which therefore is not
    empty and stays non-empty when a dependency is added; the step that the
    pull-request transformer injects is named [rm_pr_label] and its
    [depends()] is the set holding just that name. *)
Theorem default_self_dependency :
  (forall name_ raw_dict syn st np,
      raw_depends raw_dict = None ->
      exists self,
        PipelineStep_init name_ raw_dict syn st np = Ok self
        /\ name self = name_
        /\ depends self = (Ok {[ name_ ]}, self)
        /\ ({[ name_ ]} : gset string) <> ∅
        /\ forall other, exists self',
            _add_dependency other self = (Ok tt, self')
            /\ depends self' = (Ok ({[ name_ ]} ∪ {[ name other ]}), self')
            /\ ({[ name_ ]} ∪ {[ name other ]} : gset string) <> ∅)
  /\ (forall w, exists r s,
         PullRequest.inject_steps w
         = (Ok [r], {| step_objs := step_objs w ++ [s];
                       repo_objs := repo_objs w; job := job w |})
         /\ (step_objs w ++ [s]) !! r = Some s
         /\ name s = "rm_pr_label"
         /\ is_synthetic s = true
         /\ depends s = (Ok {[ "rm_pr_label" ]}, s)).
Proof.
  split.
  - intros name_ raw_dict syn st np Hd.
    destruct (init_without_depends name_ raw_dict syn st np Hd)
      as (self & Hinit & Hname & Hdep).
    exists self. split; [done|]. split; [done|].
    split; [unfold depends; unfold_m; by rewrite Hdep|].
    split; [set_solver|].
    intros other. eexists. split; [by apply add_dependency_set|].
    split; [|set_solver].
    unfold depends. unfold_m. done.
  - intros w. unfold PullRequest.inject_steps.
    destruct (init_without_depends "rm_pr_label" empty_raw true PYTHON3 None eq_refl)
      as (s & Hinit & Hname & Hdep).
    rewrite Hinit. exists (length (step_objs w)), s.
    split; [done|]. split; [by rewrite lookup_app_r, Nat.sub_diag|].
    split; [done|].
    split; [by inversion Hinit|].
    unfold depends. unfold_m. by rewrite Hdep.
Qed.

Lemma default_self_dependency_witness :
  exists self,
    PipelineStep_init "compile" empty_raw false BOURNE_SHELL None = Ok self
    /\ depends self = (Ok {[ "compile" ]}, self).
Proof.
  destruct (proj1 default_self_dependency "compile" empty_raw false BOURNE_SHELL None
              eq_refl) as (self & Hinit & _ & Hdep & _).
  exists self. split; [exact Hinit | exact Hdep].
Defined.

(** ** The release transformer *)

Section ReleaseTransformer.
Variable self : Release.ReleaseTraitTransformer.
Variable rel : ref.
Hypothesis Hrel : Release.release_step self = Some rel.

Lemma with_depends_id (o : PipelineStep) (d : gset string) :
  raw_depends (raw o) = Some (DependsSet d) -> with_depends (DependsSet d) o = o.
Proof.
  destruct o as [n syn st np outs ins [dep odir img exe reg pub]].
  simpl. by intros ->.
Qed.

(** The loop of [process_pipeline_args]: the release step ends with the
    names of all steps of [l] among its dependencies, and nothing else
    in the store changes. *)
Lemma release_loop (l : list ref) :
  forall (h : list PipelineStep) (ro : list RepositoryConfig) (j : JobVariant)
         (o : PipelineStep) (d : gset string),
    h !! rel = Some o ->
    raw_depends (raw o) = Some (DependsSet d) ->
    Forall (fun r => is_Some (h !! r)) l ->
    exists d',
      d ⊆ d'
      /\ (forall r s, r ∈ l -> h !! r = Some s -> name s ∈ d')
      /\ for_each l (fun r =>
           let* step := on_steps (deref r) in
           match Release.release_step self with
           | None => raise (AttributeError "release_step")
           | Some rel => on_steps (at_ref rel (_add_dependency step))
           end) {| step_objs := h; repo_objs := ro; job := j |}
         = (Ok tt, {| step_objs := <[rel := with_depends (DependsSet d') o]> h;
                      repo_objs := ro; job := j |}).
Proof.
  induction l as [|r l IH]; intros h ro j o d Ho Hd Hvalid.
  - exists d. split; [done|]. split; [intros r s Hr; by apply elem_of_nil in Hr|].
    simpl. unfold ret. rewrite (with_depends_id _ _ Hd).
    by rewrite list_insert_id.
  - apply Forall_cons in Hvalid as [[s Hs] Hvalid].
    assert (Hlt : rel < length h) by by eapply lookup_lt_Some.
    set (o1 := with_depends (DependsSet (d ∪ {[ name s ]})) o).
    destruct (IH (<[rel := o1]> h) ro j o1 (d ∪ {[ name s ]})) as (d' & Hsub & Hnames & Hrun).
    { by apply list_lookup_insert_eq. }
    { done. }
    { eapply Forall_impl; [exact Hvalid|]. intros r' [s' Hs'].
      destruct (decide (rel = r')) as [<-|Hne].
      - rewrite list_lookup_insert_eq; eauto.
      - rewrite list_lookup_insert_ne; eauto. }
    exists d'. split; [set_solver|]. split.
    + intros r' s' Hr' Hs'. apply elem_of_cons in Hr' as [->|Hr'].
      * rewrite Hs in Hs'. inversion Hs'; subst. set_solver.
      * destruct (decide (rel = r')) as [<-|Hne].
        -- rewrite Ho in Hs'. inversion Hs'; subst s'.
           apply (Hnames rel o1 Hr'). by apply list_lookup_insert_eq.
        -- apply (Hnames r' s' Hr'). by rewrite list_lookup_insert_ne.
    + cbn [for_each]. unfold bind at 1. unfold bind at 1.
      unfold on_steps at 1, deref. cbn [step_objs repo_objs job].
      rewrite Hs. rewrite Hrel in Hrun |- *.
      unfold on_steps at 1, at_ref. cbn [step_objs repo_objs job].
      rewrite Ho. rewrite (add_dependency_set o s d Hd).
      fold o1. rewrite list_insert_insert_eq in Hrun. exact Hrun.
Qed.

(** What [process_pipeline_args] does, case by case. *)
Lemma release_process_run (w : world) (o : PipelineStep) (d : gset string) :
  step_objs w !! rel = Some o ->
  raw_depends (raw o) = Some (DependsSet d) ->
  steps_registered w ->
  exists d',
    d ⊆ d'
    /\ (forall r s, r ∈ map snd (_steps_dict (job w)) ->
                    step_objs w !! r = Some s -> name s ∈ d')
    /\ Release.process_pipeline_args self w
       = let h' := <[rel := with_depends (DependsSet d') o]> (step_objs w) in
         match main_repository_of w with
         | None => (Ok tt, {| step_objs := h'; repo_objs := repo_objs w; job := job w |})
         | Some main_ref =>
             match Dict.lookup "repo" (job_raw (job w)) with
             | None => (Raise (KeyError "repo"),
                        {| step_objs := h'; repo_objs := repo_objs w; job := job w |})
             | Some repo_cfg =>
                 if Dict.mem "trigger" repo_cfg
                 then (Ok tt, {| step_objs := h'; repo_objs := repo_objs w;
                                 job := job w |})
                 else match repo_objs w !! main_ref with
                      | Some m =>
                          (Ok tt, {| step_objs := h';
                                     repo_objs := <[main_ref := with_trigger false m]>
                                                    (repo_objs w);
                                     job := job w |})
                      | None => (Raise Dangling,
                                 {| step_objs := h'; repo_objs := repo_objs w;
                                    job := job w |})
                      end
             end
         end.
Proof.
  destruct w as [h ro j]. unfold steps_registered, main_repository_of.
  cbn [step_objs repo_objs job]. intros Ho Hd Hvalid.
  destruct (release_loop (map snd (_steps_dict j)) h ro j o d Ho Hd Hvalid)
    as (d' & Hsub & Hnames & Hrun).
  exists d'. split; [done|]. split; [done|].
  unfold Release.process_pipeline_args.
  unfold bind at 1. unfold on_job at 1, steps. unfold_m.
  cbn [step_objs repo_objs job].
  rewrite Hrun.
  unfold on_job, main_repository. unfold_m. cbn [step_objs repo_objs job].
  destruct (_main_repository_name j ≫= _) as [main_ref|]; [|done].
  cbn [step_objs repo_objs job].
  destruct (Dict.lookup "repo" (job_raw j)) as [cfg|]; [|done].
  destruct (Dict.mem "trigger" cfg); cbn [negb]; [done|].
  unfold on_repos, at_ref. cbn [step_objs repo_objs job].
  by destruct (ro !! main_ref).
Qed.

End ReleaseTransformer.

Lemma main_repository_run (j : JobVariant) :
  main_repository j
  = (Ok (n ← _main_repository_name j; _repos_dict j !! n), j).
Proof. reflexivity. Qed.

Lemma steps_run (j : JobVariant) : steps j = (Ok (map snd (_steps_dict j)), j).
Proof. reflexivity. Qed.

(** C1: when the release transformer, whose [release_step] is the injected
    step named [release], runs [process_pipeline_args] on a job whose
    registered steps are all in the store, the call succeeds, the registry
    is as before, and afterwards the dependency set of the [release] step
    contains its former members and the name of every step registered in
    the job. *)
Theorem release_depends_on_all_steps
    (self : Release.ReleaseTraitTransformer) (w : world) (rel : ref)
    (o : PipelineStep) (d : gset string) :
  Release.release_step self = Some rel ->
  step_objs w !! rel = Some o ->
  name o = "release" ->
  raw_depends (raw o) = Some (DependsSet d) ->
  steps_registered w ->
  repos_ready w ->
  exists w' o' d',
    Release.process_pipeline_args self w = (Ok tt, w')
    /\ steps (job w') = steps (job w)
    /\ step_objs w' !! rel = Some o'
    /\ name o' = "release"
    /\ depends o' = (Ok d', o')
    /\ d ⊆ d'
    /\ forall registered r s,
        steps (job w') = (Ok registered, job w') ->
        r ∈ registered -> step_objs w' !! r = Some s -> name s ∈ d'.
Proof.
  intros Hrel Ho Hname Hd Hvalid Hready.
  destruct (release_process_run self rel Hrel w o d Ho Hd Hvalid)
    as (d' & Hsub & Hnames & Hrun).
  assert (Hlt : rel < length (step_objs w)) by by eapply lookup_lt_Some.
  set (h' := <[rel := with_depends (DependsSet d') o]> (step_objs w)) in *.
  assert (Hfinal : exists ro',
             Release.process_pipeline_args self w
             = (Ok tt, {| step_objs := h'; repo_objs := ro'; job := job w |})).
  { rewrite Hrun. unfold repos_ready in Hready.
    destruct (main_repository_of w) as [main_ref|]; [|eauto].
    destruct Hready as [[m ->] [cfg ->]].
    destruct (Dict.mem "trigger" cfg); eauto. }
  destruct Hfinal as [ro' Hfinal].
  eexists _, (with_depends (DependsSet d') o), d'.
  split; [exact Hfinal|]. cbn [step_objs repo_objs job].
  split; [done|].
  split; [by apply list_lookup_insert_eq|].
  split; [done|]. split; [done|]. split; [done|].
  intros registered r s Hsteps Hr Hs.
  rewrite steps_run in Hsteps. inversion Hsteps; subst registered.
  destruct (decide (rel = r)) as [<-|Hne].
  - unfold h' in Hs. rewrite list_lookup_insert_eq in Hs by done.
    inversion Hs; subst s. cbn [name with_depends]. by eapply Hnames.
  - unfold h' in Hs. rewrite list_lookup_insert_ne in Hs by done.
    by eapply Hnames.
Qed.

Lemma release_depends_on_all_steps_witness :
  exists w' o' d',
    Release.process_pipeline_args sample_transformer (sample_world []) = (Ok tt, w')
    /\ step_objs w' !! 1 = Some o'
    /\ depends o' = (Ok d', o')
    /\ "compile" ∈ d'.
Proof.
  destruct (release_depends_on_all_steps sample_transformer (sample_world []) 1
              sample_release_step {[ "release" ]})
    as (w' & o' & d' & Hrun & Hsteps & Ho' & _ & Hdep & _ & Hall).
  - reflexivity.
  - reflexivity.
  - reflexivity.
  - reflexivity.
  - repeat constructor; simpl; eauto.
  - split; simpl; eauto.
  - exists w', o', d'. split; [exact Hrun|]. split; [exact Ho'|].
    split; [exact Hdep|].
    assert (Hl : 2 <= length (step_objs w')).
    { apply lookup_lt_Some in Ho'. lia. }
    destruct (step_objs w') as [|s0 h0] eqn:Eh; [simpl in Hl; lia|].
    assert (Hreg : steps (job w') = (Ok [0; 1], job w')).
    { rewrite (steps_run (job w')). rewrite steps_run in Hsteps.
      rewrite steps_run in Hsteps. inversion Hsteps as [Hs]. rewrite Hs.
      reflexivity. }
    pose proof (Hall [0; 1] 0 s0 Hreg ltac:(set_solver) eq_refl) as Hin.
    pose proof Hrun as Hrun'.
    vm_compute in Hrun'. inversion Hrun' as [Hw]. rewrite <- Hw in Eh.
    simpl in Eh. inversion Eh as [[Hs0 Hh0]]. rewrite <- Hs0 in Hin.
    exact Hin.
Defined.

(** C6: when the release transformer runs [process_pipeline_args] on a
    job that has a main repository, the call succeeds and the main
    repository is the same object as before; if the raw ['repo']
    configuration has no ['trigger'] key its trigger flag is now false
    (nothing else about it changed), and if the key is there the object,
    and with it the flag, is exactly as it was. *)
Theorem release_trigger_default
    (self : Release.ReleaseTraitTransformer) (w : world) (rel : ref)
    (o : PipelineStep) (d : gset string)
    (main_ref : ref) (m : RepositoryConfig) (repo_cfg : pydict) :
  Release.release_step self = Some rel ->
  step_objs w !! rel = Some o ->
  raw_depends (raw o) = Some (DependsSet d) ->
  steps_registered w ->
  main_repository (job w) = (Ok (Some main_ref), job w) ->
  repo_objs w !! main_ref = Some m ->
  Dict.lookup "repo" (job_raw (job w)) = Some repo_cfg ->
  exists w' m',
    Release.process_pipeline_args self w = (Ok tt, w')
    /\ main_repository (job w') = (Ok (Some main_ref), job w')
    /\ repo_objs w' !! main_ref = Some m'
    /\ (Dict.mem "trigger" repo_cfg = false ->
        _trigger m' = false /\ m' = with_trigger false m)
    /\ (Dict.mem "trigger" repo_cfg = true ->
        m' = m /\ _trigger m' = _trigger m)
    /\ forall r x, r <> main_ref -> repo_objs w !! r = Some x ->
                   repo_objs w' !! r = Some x.
Proof.
  intros Hrel Ho Hd Hvalid Hmain Hm Hcfg.
  destruct (release_process_run self rel Hrel w o d Ho Hd Hvalid)
    as (d' & Hsub & Hnames & Hrun).
  rewrite main_repository_run in Hmain. inversion Hmain as [Hmain'].
  unfold main_repository_of in Hrun. rewrite Hmain', Hcfg, Hm in Hrun.
  cbv zeta in Hrun.
  destruct (Dict.mem "trigger" repo_cfg) eqn:Etr.
  - eexists _, m. split; [exact Hrun|]. cbn [step_objs repo_objs job].
    rewrite main_repository_run, Hmain'.
    split; [done|]. split; [done|]. split; [discriminate|]. split; [done|].
    done.
  - eexists _, (with_trigger false m). split; [exact Hrun|].
    cbn [step_objs repo_objs job]. rewrite main_repository_run, Hmain'.
    assert (Hlt : main_ref < length (repo_objs w)) by by eapply lookup_lt_Some.
    split; [done|]. split; [by apply list_lookup_insert_eq|].
    split; [done|]. split; [discriminate|].
    intros r x Hne Hx. by rewrite list_lookup_insert_ne.
Qed.

Lemma release_trigger_default_witness :
  (exists w' m',
      Release.process_pipeline_args sample_transformer
        (sample_world [("branch", PyAtom (AStr "master"))]) = (Ok tt, w')
      /\ repo_objs w' !! 0 = Some m' /\ _trigger m' = false)
  /\ (exists w' m',
      Release.process_pipeline_args sample_transformer
        (sample_world [("trigger", PyAtom (ABool true))]) = (Ok tt, w')
      /\ repo_objs w' !! 0 = Some m' /\ _trigger m' = true).
Proof.
  split.
  - destruct (release_trigger_default sample_transformer
                (sample_world [("branch", PyAtom (AStr "master"))]) 1
                sample_release_step {[ "release" ]} 0 sample_repo
                [("branch", PyAtom (AStr "master"))])
      as (w' & m' & Hrun & _ & Hm' & Hno & _).
    + reflexivity.
    + reflexivity.
    + reflexivity.
    + repeat constructor; simpl; eauto.
    + reflexivity.
    + reflexivity.
    + reflexivity.
    + exists w', m'. split; [exact Hrun|]. split; [exact Hm'|].
      exact (proj1 (Hno eq_refl)).
  - destruct (release_trigger_default sample_transformer
                (sample_world [("trigger", PyAtom (ABool true))]) 1
                sample_release_step {[ "release" ]} 0 sample_repo
                [("trigger", PyAtom (ABool true))])
      as (w' & m' & Hrun & _ & Hm' & _ & Hyes & _).
    + reflexivity.
    + reflexivity.
    + reflexivity.
    + repeat constructor; simpl; eauto.
    + reflexivity.
    + reflexivity.
    + reflexivity.
    + exists w', m'. split; [exact Hrun|]. split; [exact Hm'|].
      destruct (Hyes eq_refl) as [-> _]. reflexivity.
Defined.

(** ** The pull-request transformer *)

(** C5: on a job whose main repository is registered under its own logical
    name, [process_pipeline_args] of the pull-request transformer succeeds;
    afterwards the entry under that logical name is a new repository
    object, the pull-request flavour for the same logical name with the
    other attributes of the main repository, and its trigger flag is true;
    the entries under all other logical names, and all repository objects
    that existed before, are unchanged, as are the steps. *)
Theorem pull_request_main_repository
    (w : world) (main_ref : ref) (m : RepositoryConfig) :
  main_repository (job w) = (Ok (Some main_ref), job w) ->
  repo_objs w !! main_ref = Some m ->
  _main_repository_name (job w) = Some (_logical_name m) ->
  exists w' pr_ref pr,
    PullRequest.process_pipeline_args w = (Ok tt, w')
    /\ _repos_dict (job w') !! _logical_name m = Some pr_ref
    /\ main_repository (job w') = (Ok (Some pr_ref), job w')
    /\ repo_objs w' !! pr_ref = Some pr
    /\ _is_pull_request pr = true
    /\ _logical_name pr = _logical_name m
    /\ _trigger pr = true
    /\ (_branch pr, _hostname pr, _path pr) = (_branch m, _hostname m, _path m)
    /\ (forall k, k <> _logical_name m ->
                  _repos_dict (job w') !! k = _repos_dict (job w) !! k)
    /\ (forall r x, repo_objs w !! r = Some x -> repo_objs w' !! r = Some x)
    /\ step_objs w' = step_objs w
    /\ _steps_dict (job w') = _steps_dict (job w).
Proof.
  destruct w as [h ro j]. cbn [step_objs repo_objs job].
  intros Hmain Hm Hname.
  rewrite main_repository_run in Hmain. inversion Hmain as [Hmain'].
  assert (Hreg : _repos_dict j !! _logical_name m = Some main_ref).
  { rewrite Hname in Hmain'. exact Hmain'. }
  set (pr := {| _logical_name := _logical_name m; _branch := _branch m;
                _hostname := _hostname m; _path := _path m;
                _is_main_repo := _is_main_repo m; _is_pull_request := true;
                _trigger := true |}).
  assert (Hrun : PullRequest.process_pipeline_args
                   {| step_objs := h; repo_objs := ro; job := j |}
                 = (Ok tt, {| step_objs := h; repo_objs := ro ++ [pr];
                              job := with_repos
                                       (<[_logical_name m := length ro]> (_repos_dict j))
                                       j |})).
  { unfold PullRequest.process_pipeline_args.
    unfold bind at 1. unfold on_job at 1. cbn [step_objs repo_objs job].
    rewrite main_repository_run, Hmain'.
    unfold bind at 1. unfold on_repos at 1, at_ref, logical_name. unfold_m.
    cbn [step_objs repo_objs job]. rewrite Hm.
    unfold pr_repository, on_job, on_repos, deref, alloc. unfold_m.
    cbn [step_objs repo_objs job]. rewrite Hreg.
    cbn [step_objs repo_objs job]. unfold ref in *.
    rewrite (list_insert_id _ _ _ Hm), Hm.
    cbn [step_objs repo_objs job].
    rewrite lookup_app_r by done. rewrite Nat.sub_diag. cbn [lookup list_lookup].
    rewrite insert_app_r_alt by done. rewrite Nat.sub_diag. reflexivity. }
  exists {| step_objs := h; repo_objs := ro ++ [pr];
            job := with_repos (<[_logical_name m := length ro]> (_repos_dict j)) j |},
         (length ro), pr.
  split; [exact Hrun|]. cbn [step_objs repo_objs job with_repos _repos_dict].
  split; [by rewrite lookup_insert_eq|].
  split.
  { rewrite main_repository_run. cbn [with_repos _main_repository_name _repos_dict].
    rewrite Hname. cbn. by rewrite lookup_insert_eq. }
  split; [by rewrite lookup_app_r, Nat.sub_diag|].
  split; [done|]. split; [done|]. split; [done|]. split; [done|].
  split; [intros k Hk; by rewrite lookup_insert_ne|].
  split; [intros r x Hx; by apply lookup_app_l_Some|].
  done.
Qed.

Lemma pull_request_main_repository_witness :
  exists w' pr_ref pr,
    PullRequest.process_pipeline_args (sample_world []) = (Ok tt, w')
    /\ _repos_dict (job w') !! "source" = Some pr_ref
    /\ repo_objs w' !! pr_ref = Some pr
    /\ _is_pull_request pr = true
    /\ _trigger pr = true.
Proof.
  destruct (pull_request_main_repository (sample_world []) 0 sample_repo)
    as (w' & pr_ref & pr & Hrun & Hreg & _ & Hpr & Hflavour & _ & Htrigger & _).
  - reflexivity.
  - reflexivity.
  - reflexivity.
  - exists w', pr_ref, pr. repeat split; assumption.
Defined.

(** ** Image references *)

Section SplitJoin.
Variable sep : ascii.

Lemma split_nonempty (s : string) : Str.split sep s <> [].
Proof.
  destruct s as [|c s]; simpl; [done|].
  destruct (Ascii.eqb c sep); [done|]. by destruct (Str.split sep s).
Qed.

Lemma join_cons (j p q : string) (ps : list string) :
  Str.join j (p :: q :: ps) = p +:+ j +:+ Str.join j (q :: ps).
Proof. reflexivity. Qed.

Lemma join_split (s : string) :
  Str.join (String sep EmptyString) (Str.split sep s) = s.
Proof.
  induction s as [|c s IH]; [done|].
  cbn [Str.split]. pose proof (split_nonempty s) as Hne.
  destruct (Ascii.eqb_spec c sep) as [->|Hc].
  - destruct (Str.split sep s) as [|p ps]; [done|].
    rewrite join_cons, IH. reflexivity.
  - destruct (Str.split sep s) as [|p ps]; [done|].
    destruct ps as [|q ps].
    + cbn [Str.join] in *. by rewrite IH.
    + rewrite join_cons. rewrite join_cons in IH. by rewrite <- IH.
Qed.

Lemma split_prefix (p s : string) :
  Str.contains sep p = false ->
  Str.split sep (p +:+ String sep s) = p :: Str.split sep s.
Proof.
  induction p as [|c p IH]; intros Hp.
  - simpl. by rewrite Ascii.eqb_refl.
  - cbn [Str.contains] in Hp. rewrite Ascii.eqb_sym in Hp.
    destruct (Ascii.eqb c sep) eqn:Ec; [done|].
    change (String c p +:+ String sep s) with (String c (p +:+ String sep s)).
    cbn [Str.split]. rewrite Ec. by rewrite IH.
Qed.

Lemma contains_app (a b : string) :
  Str.contains sep (a +:+ b) = Str.contains sep a || Str.contains sep b.
Proof.
  induction a as [|c a IH]; [done|].
  change (String c a +:+ b) with (String c (a +:+ b)).
  cbn [Str.contains]. by destruct (Ascii.eqb sep c).
Qed.
End SplitJoin.

(** The result of [normalise_image_reference] on a string, in closed form. *)
Lemma normalise_image_reference_eq (s : string) :
  Registry.normalise_image_reference (PyAtom (AStr s))
  = Ok (if Str.contains "@" s then s
        else match Str.split "/" s with
             | left_part :: rest =>
                 match Str.split ":" left_part with
                 | host :: _ =>
                     if Str.contains "." host then s
                     else match rest with
                          | [] => "registry-1.docker.io/library/" +:+ s
                          | _ => "registry-1.docker.io/" +:+ s
                          end
                 | [] => s
                 end
             | [] => s
             end).
Proof.
  unfold Registry.normalise_image_reference. cbn [Util.check_type_str].
  destruct (Str.contains "@" s); [done|].
  pose proof (join_split "/" s) as Hjoin.
  pose proof (split_nonempty "/" s) as Hne.
  destruct (Str.split "/" s) as [|left_part rest]; [done|].
  pose proof (split_nonempty ":" left_part) as Hne'.
  destruct (Str.split ":" left_part) as [|host hosts]; [done|].
  destruct (Str.contains "." host); cbn [negb].
  - by rewrite Hjoin.
  - destruct rest as [|q rest]; cbn [length Nat.eqb].
    + cbn [Str.join] in *. by rewrite Hjoin.
    + rewrite <- Hjoin. reflexivity.
Qed.

Lemma normalise_registry_prefix (rest : string) :
  Str.contains "@" rest = false ->
  Registry.normalise_image_reference
    (PyAtom (AStr ("registry-1.docker.io" +:+ String "/" rest)))
  = Ok ("registry-1.docker.io" +:+ String "/" rest).
Proof.
  intros Hat. rewrite normalise_image_reference_eq.
  rewrite contains_app. cbn [Str.contains] in *. rewrite Hat.
  rewrite split_prefix by reflexivity.
  reflexivity.
Qed.

(** C10: on every string [normalise_image_reference] succeeds, and applied
    to its own result it returns that result unchanged; a reference with
    ['@'] in it is returned as it is. *)
Theorem normalise_image_reference_idempotent (s : string) :
  (exists r, Registry.normalise_image_reference (PyAtom (AStr s)) = Ok r)
  /\ (forall r,
        Registry.normalise_image_reference (PyAtom (AStr s)) = Ok r ->
        Registry.normalise_image_reference (PyAtom (AStr r)) = Ok r)
  /\ (Str.contains "@" s = true ->
      Registry.normalise_image_reference (PyAtom (AStr s)) = Ok s).
Proof.
  split; [rewrite normalise_image_reference_eq; eauto|].
  split.
  - intros r Hr.
    rewrite normalise_image_reference_eq in Hr. injection Hr as <-.
    destruct (Str.contains "@" s) eqn:Hat.
    { by rewrite normalise_image_reference_eq, Hat. }
    destruct (Str.split "/" s) as [|left_part rest] eqn:Eparts.
    { by rewrite normalise_image_reference_eq, Hat, Eparts. }
    destruct (Str.split ":" left_part) as [|host hosts] eqn:Ehost.
    { by rewrite normalise_image_reference_eq, Hat, Eparts, Ehost. }
    destruct (Str.contains "." host) eqn:Edot.
    { by rewrite normalise_image_reference_eq, Hat, Eparts, Ehost, Edot. }
    destruct rest as [|q rest].
    + apply (normalise_registry_prefix ("library/" +:+ s)).
      by rewrite contains_app.
    + by apply (normalise_registry_prefix s).
  - intros Hat. rewrite normalise_image_reference_eq. by rewrite Hat.
Qed.

Lemma normalise_image_reference_idempotent_witness :
  Registry.normalise_image_reference (PyAtom (AStr "alpine:3.7"))
    = Ok "registry-1.docker.io/library/alpine:3.7"
  /\ Registry.normalise_image_reference
       (PyAtom (AStr "registry-1.docker.io/library/alpine:3.7"))
     = Ok "registry-1.docker.io/library/alpine:3.7"
  /\ Registry.normalise_image_reference (PyAtom (AStr "eu.gcr.io/x/y@sha256:ab"))
     = Ok "eu.gcr.io/x/y@sha256:ab".
Proof.
  split; [reflexivity|]. split.
  - apply (proj1 (proj2 (normalise_image_reference_idempotent "alpine:3.7"))).
    reflexivity.
  - apply (proj2 (proj2 (normalise_image_reference_idempotent
                           "eu.gcr.io/x/y@sha256:ab"))).
    reflexivity.
Defined.

(** ** Merging attribute mappings *)

Lemma dict_lookup_not_key {V} (k : string) (d : list (string * V)) :
  k ∉ Dict.keys d -> Dict.lookup k d = None.
Proof.
  unfold Dict.keys. induction d as [|[k' v] d IH]; [done|].
  cbn [map fst Dict.lookup]. intros Hk.
  apply not_elem_of_cons in Hk as [Hne Hk].
  destruct (String.eqb_spec k k'); [done|]. by apply IH.
Qed.

Lemma value_strategy_dict (lists : bool) (base other : pydict) :
  Util.value_strategy lists (PyDict base) (PyDict other)
  = PyDict (Util.dict_merge lists other base).
Proof.
  cbn [Util.value_strategy Util.type_compatible negb]. f_equal.
  revert base. induction other as [|[k v] other IH]; intros base; [done|].
  cbn [Util.dict_merge]. destruct (Dict.lookup k base); apply IH.
Qed.

(** The merged mapping, key by key. *)
Lemma dict_merge_lookup (lists : bool) (other : pydict) :
  NoDup (Dict.keys other) ->
  forall (base : pydict) (k : string),
    Dict.lookup k (Util.dict_merge lists other base)
    = match Dict.lookup k other, Dict.lookup k base with
      | None, b => b
      | Some v, None => Some v
      | Some v, Some bv => Some (Util.value_strategy lists bv v)
      end.
Proof.
  unfold Dict.keys.
  induction other as [|[k0 v0] other IH]; intros Hnd base k; [done|].
  cbn [map fst] in Hnd. apply NoDup_cons in Hnd as [Hk0 Hnd].
  cbn [Util.dict_merge Dict.lookup].
  destruct (String.eqb_spec k k0) as [->|Hne].
  - destruct (Dict.lookup k0 base) as [bv|] eqn:Eb;
      rewrite (IH Hnd), (dict_lookup_not_key k0 other Hk0), dict_lookup_set_eq; done.
  - destruct (Dict.lookup k0 base) as [bv|] eqn:Eb;
      rewrite (IH Hnd), dict_lookup_set_ne by done; done.
Qed.

Lemma list_merge_new_elements (base other : list pyval) (e : pyval) :
  e ∈ List.filter (fun e => negb (Util.py_in e base)) other ->
  e ∈ other /\ Util.py_in e base = false.
Proof.
  intros He. apply list_elem_of_In, filter_In in He as [Hin Hneg].
  split; [by apply list_elem_of_In|]. by destruct (Util.py_in e base).
Qed.

(** X25: [merge_dicts] on two mappings (trait defaults, user
    configuration) succeeds with a mapping in which a key of the defaults
    alone keeps its value; a key of the user configuration alone takes the
    user's value; on a key of both, a user scalar wins, as does the user's
    value when the two values are of unrelated types; two lists give the
    default list followed, in order, by those user elements that are not
    equal to an element of the default list; and two mappings are merged
    in the same way, recursively. *)
Theorem merge_dicts_spec (defaults user : pydict) :
  NoDup (Dict.keys user) ->
  exists merged,
    Util.merge_dicts (PyDict defaults) (PyDict user) Util.LsMerge = Ok (PyDict merged)
    /\ (forall k, Dict.lookup k user = None ->
                  Dict.lookup k merged = Dict.lookup k defaults)
    /\ (forall k v, Dict.lookup k user = Some v ->
                    Dict.lookup k defaults = None ->
                    Dict.lookup k merged = Some v)
    /\ (forall k a dv, Dict.lookup k user = Some (PyAtom a) ->
                       Dict.lookup k defaults = Some dv ->
                       Dict.lookup k merged = Some (PyAtom a))
    /\ (forall k v dv, Dict.lookup k user = Some v ->
                       Dict.lookup k defaults = Some dv ->
                       Util.type_compatible dv v = false ->
                       Dict.lookup k merged = Some v)
    /\ (forall k ul dl, Dict.lookup k user = Some (PyList ul) ->
                        Dict.lookup k defaults = Some (PyList dl) ->
                        Dict.lookup k merged
                        = Some (PyList (dl ++ List.filter (fun e => negb (Util.py_in e dl)) ul))
                        /\ forall e, e ∈ List.filter (fun e => negb (Util.py_in e dl)) ul ->
                                     e ∈ ul /\ Util.py_in e dl = false)
    /\ (forall k ud dd, Dict.lookup k user = Some (PyDict ud) ->
                        Dict.lookup k defaults = Some (PyDict dd) ->
                        exists nested,
                          Util.merge_dicts (PyDict dd) (PyDict ud) Util.LsMerge
                          = Ok (PyDict nested)
                          /\ Dict.lookup k merged = Some (PyDict nested)).
Proof.
  intros Hnd. exists (Util.dict_merge true user defaults).
  split; [cbn [Util.merge_dicts Util.not_none]; by rewrite value_strategy_dict|].
  pose proof (dict_merge_lookup true user Hnd defaults) as Hlookup.
  split; [intros k Hu; by rewrite Hlookup, Hu|].
  split; [intros k v Hu Hd; by rewrite Hlookup, Hu, Hd|].
  split.
  { intros k a dv Hu Hd. rewrite Hlookup, Hu, Hd. f_equal.
    cbn [Util.value_strategy]. by destruct (negb _). }
  split.
  { intros k v dv Hu Hd Hty. rewrite Hlookup, Hu, Hd. f_equal.
    destruct v; cbn [Util.value_strategy]; by rewrite Hty. }
  split.
  { intros k ul dl Hu Hd. split; [by rewrite Hlookup, Hu, Hd|].
    apply list_merge_new_elements. }
  intros k ud dd Hu Hd. exists (Util.dict_merge true ud dd).
  split; [cbn [Util.merge_dicts Util.not_none]; by rewrite value_strategy_dict|].
  by rewrite Hlookup, Hu, Hd, value_strategy_dict.
Qed.

Lemma merge_dicts_spec_witness :
  exists merged,
    Util.merge_dicts (PyDict sample_defaults) (PyDict sample_user_config) Util.LsMerge
    = Ok (PyDict merged)
    /\ Dict.lookup "retries" merged = Some (PyAtom (AInt 5))
    /\ Dict.lookup "notify" merged = Some (PyAtom (ABool true))
    /\ Dict.lookup "channels" merged
       = Some (PyList [PyAtom (AStr "dev"); PyAtom (AStr "qa"); PyAtom (AStr "prod")]).
Proof.
  destruct (merge_dicts_spec sample_defaults sample_user_config)
    as (merged & Hrun & _ & Hnew & Hscalar & _ & Hlist & _).
  - apply (bool_decide_unpack (NoDup (Dict.keys sample_user_config))).
    vm_compute. exact I.
  - exists merged. split; [exact Hrun|].
    split; [exact (Hscalar "retries" (AInt 5) (PyAtom (AInt 3)) eq_refl eq_refl)|].
    split; [exact (Hnew "notify" (PyAtom (ABool true)) eq_refl eq_refl)|].
    exact (proj1 (Hlist "channels" [PyAtom (AStr "qa"); PyAtom (AStr "prod")]
                    [PyAtom (AStr "dev"); PyAtom (AStr "qa")] eq_refl eq_refl)).
Defined.

(** ** Evaluations on concrete inputs *)

Example shlex_quote_examples :
  Shlex.quote "a-b/c.d" = "a-b/c.d"
  /\ Shlex.quote EmptyString = String Str.SQUOTE (String Str.SQUOTE EmptyString)
  /\ Shlex.quote "it's"
     = String Str.SQUOTE "it" +:+ Shlex.quote_escape +:+ "s"
         +:+ String Str.SQUOTE EmptyString.
Proof. repeat split. Qed.

Example posixpath_join_examples :
  Posixpath.join "bin" ["x"] = "bin/x"
  /\ Posixpath.join "bin/" ["x"] = "bin/x"
  /\ Posixpath.join "bin" ["/abs"; "x"] = "/abs/x"
  /\ Posixpath.join EmptyString ["x"] = "x".
Proof. repeat split. Qed.

Example split_examples :
  Str.split "/" "a//b" = ["a"; EmptyString; "b"]
  /\ Str.split "/" EmptyString = [EmptyString]
  /\ Str.split ":" "localhost:5000" = ["localhost"; "5000"].
Proof. repeat split. Qed.

Example py_str_examples :
  py_str (AInt (-12)) = "-12" /\ py_str (AInt 0) = "0"
  /\ py_str (ABool true) = "True" /\ py_str ANone = "None".
Proof. repeat split. Qed.

Example execute_empty_list :
  fst (execute (PrefixStr EmptyString) (step_with_execute (Some (ExecuteList []))))
  = Raise IndexError.
Proof. reflexivity. Qed.

Example normalise_examples :
  Registry.normalise_image_reference (PyAtom (AStr "org/image:1"))
    = Ok "registry-1.docker.io/org/image:1"
  /\ Registry.normalise_image_reference (PyAtom (AStr "localhost:5000/image"))
     = Ok "registry-1.docker.io/localhost:5000/image"
  /\ Registry.normalise_image_reference (PyAtom (AStr "eu.gcr.io/org/image:1"))
     = Ok "eu.gcr.io/org/image:1"
  /\ Registry.normalise_image_reference (PyAtom (AInt 3)) = Raise Failure.
Proof. repeat split. Qed.

(** The list strategy drops a user element only when it equals an element
    of the default list ([True] equals [1]); duplicates within either list
    are kept. *)
Example list_merge_examples :
  Util.list_merge [PyAtom (AInt 1)] [PyAtom (ABool true); PyAtom (AInt 2)]
    = [PyAtom (AInt 1); PyAtom (AInt 2)]
  /\ Util.list_merge [PyAtom (AInt 1)] [PyAtom (AInt 2); PyAtom (AInt 2)]
     = [PyAtom (AInt 1); PyAtom (AInt 2); PyAtom (AInt 2)]
  /\ Util.list_merge [PyAtom (AInt 1); PyAtom (AInt 1)] []
     = [PyAtom (AInt 1); PyAtom (AInt 1)].
Proof. repeat split. Qed.

Example merge_dicts_examples :
  Util.merge_dicts (PyDict sample_defaults) (PyDict sample_user_config) Util.LsMerge
    = Ok (PyDict
            [("policies", PyDict [("require-label", PyAtom (AStr "lgtm"));
                                  ("replacement-label", PyAtom (AStr "needs/ok-to-test"))]);
             ("channels", PyList [PyAtom (AStr "dev"); PyAtom (AStr "qa");
                                  PyAtom (AStr "prod")]);
             ("retries", PyAtom (AInt 5));
             ("notify", PyAtom (ABool true))])
  /\ Util.merge_dicts (PyDict [("channels", PyList [PyAtom (AStr "dev")])])
       (PyDict [("channels", PyList [PyAtom (AStr "prod")])]) Util.LsNone
     = Ok (PyDict [("channels", PyList [PyAtom (AStr "prod")])])
  /\ Util.merge_dicts (PyAtom ANone) (PyDict []) Util.LsMerge = Raise Failure
  /\ Util.merge_dicts (PyDict []) (PyDict []) (Util.LsOther "append")
     = Raise NotImplementedError.
Proof. repeat split. Qed.

(** Without [inject_steps] the transformer has no [release_step], and
    [process_pipeline_args] fails on the first registered step. *)
Example release_without_inject :
  fst (Release.process_pipeline_args {| Release.release_step := None |}
         (sample_world []))
  = Raise (AttributeError "release_step").
Proof. reflexivity. Qed.

Example release_inject_then_process :
  let w0 := {| step_objs := [step_with_image None]; repo_objs := [sample_repo];
               job := {| job_raw := [("repo", [])];
                         _steps_dict := [("compile", 0); ("release", 1)];
                         _repos_dict := {[ "source" := 0 ]};
                         _main_repository_name := Some "source" |} |} in
  match Release.inject_steps {| Release.release_step := None |} w0 with
  | (Ok (self, _), w1) =>
      match Release.process_pipeline_args self w1 with
      | (Ok _, w2) =>
          (s ← step_objs w2 !! 1; raw_depends (raw s))
          = Some (DependsSet ({[ "release" ]} ∪ {[ "compile" ]} ∪ {[ "release" ]}))
          /\ (_trigger <$> repo_objs w2 !! 0) = Some false
      | _ => False
      end
  | _ => False
  end.
Proof. vm_compute. split; reflexivity. Qed.

(** * Further properties of the code *)

(** ** Steps: reading slots back *)

Lemma dict_mem_lookup {V} (k : string) (d : list (string * V)) :
  Dict.mem k d = false <-> Dict.lookup k d = None.
Proof. unfold Dict.mem. destruct (Dict.lookup k d); split; congruence. Qed.

(** X1: a slot that was added can be read back: after a successful
    [add_output(n, v)], [output(n)] returns [v], every other output name
    reads as before (a value, or [KeyError]), and the inputs read as
    before; [output] of a name that is not a slot raises [KeyError]. *)
Theorem output_after_add_output (self : PipelineStep) (n v : string) :
  Dict.mem n (_outputs_dict self) = false ->
  output n self = (Raise (KeyError n), self)
  /\ exists self',
      add_output n v self = (Ok tt, self')
      /\ output n self' = (Ok v, self')
      /\ (forall k, k <> n -> fst (output k self') = fst (output k self))
      /\ (forall k, fst (input k self') = fst (input k self)).
Proof.
  intros Hfresh. split.
  - unfold output, outputs. unfold_m.
    by rewrite (proj1 (dict_mem_lookup _ _) Hfresh).
  - unfold add_output. unfold_m. rewrite Hfresh. eexists. split; [reflexivity|].
    unfold output, input, outputs, inputs. unfold_m. cbn [_outputs_dict _inputs_dict with_outputs].
    rewrite dict_lookup_set_eq. split; [done|]. split.
    + intros k Hk. rewrite dict_lookup_set_ne by done.
      by destruct (Dict.lookup k _).
    + intros k. by destruct (Dict.lookup k _).
Qed.

Lemma output_after_add_output_witness :
  exists self',
    add_output "lib" "LIB_PATH" step0 = (Ok tt, self')
    /\ output "lib" self' = (Ok "LIB_PATH", self').
Proof.
  destruct (proj2 (output_after_add_output step0 "lib" "LIB_PATH" eq_refl))
    as (self' & Hadd & Hout & _).
  exists self'. split; [exact Hadd | exact Hout].
Defined.

(** X2: the same for inputs: after a successful [add_input(n, v)],
    [input(n)] returns [v], the other inputs and all outputs read as
    before; [input] of a name that is not a slot raises [KeyError]. *)
Theorem input_after_add_input (self : PipelineStep) (n v : string) :
  Dict.mem n (_inputs_dict self) = false ->
  input n self = (Raise (KeyError n), self)
  /\ exists self',
      add_input n v self = (Ok tt, self')
      /\ input n self' = (Ok v, self')
      /\ (forall k, k <> n -> fst (input k self') = fst (input k self))
      /\ (forall k, fst (output k self') = fst (output k self)).
Proof.
  intros Hfresh. split.
  - unfold input, inputs. unfold_m.
    by rewrite (proj1 (dict_mem_lookup _ _) Hfresh).
  - unfold add_input. unfold_m. rewrite Hfresh. eexists. split; [reflexivity|].
    unfold output, input, outputs, inputs. unfold_m. cbn [_outputs_dict _inputs_dict with_inputs].
    rewrite dict_lookup_set_eq. split; [done|]. split.
    + intros k Hk. rewrite dict_lookup_set_ne by done.
      by destruct (Dict.lookup k _).
    + intros k. by destruct (Dict.lookup k _).
Qed.

Lemma input_after_add_input_witness :
  exists self',
    add_input "src" "SRC_PATH" step0 = (Ok tt, self')
    /\ input "src" self' = (Ok "SRC_PATH", self').
Proof.
  destruct (proj2 (input_after_add_input step0 "src" "SRC_PATH" eq_refl))
    as (self' & Hadd & Hin & _).
  exists self'. split; [exact Hadd | exact Hin].
Defined.

(** ** Steps: construction *)

(** The constructor cannot fail, whatever the raw configuration: the one
    exception it could raise, a duplicate output, needs an output to be
    there already. *)
Lemma init_total (name_ : string) (raw_dict : step_raw)
    (syn : bool) (st : ScriptType) (np : option StepNotificationPolicy) :
  exists self,
    PipelineStep_init name_ raw_dict syn st np = Ok self
    /\ name self = name_ /\ is_synthetic self = syn
    /\ _script_type self = st /\ _inputs_dict self = []
    /\ raw_depends (raw self)
       = Some (DependsSet (match raw_depends raw_dict with
                           | None => {[ name_ ]}
                           | Some d => to_set d
                           end))
    /\ raw_output_dir (raw self) = raw_output_dir raw_dict
    /\ raw_image (raw self) = raw_image raw_dict
    /\ raw_execute (raw self) = raw_execute raw_dict
    /\ _outputs_dict self
       = match raw_output_dir raw_dict with
         | Some d => if truthy d then [(d +:+ "_path", d +:+ "_path")] else []
         | None => []
         end.
Proof.
  unfold PipelineStep_init, custom_init, add_output. unfold_m.
  destruct raw_dict as [dep odir img exe reg pub]. cbn [raw name _outputs_dict].
  destruct dep as [d|]; cbn [raw with_depends raw_output_dir raw_depends];
    (destruct odir as [o|]; [destruct (truthy o)|]);
    cbn; eexists; (split; [reflexivity|]); cbn; repeat split.
Qed.

(** X3: a step built with a non-empty ['output_dir'] [d] has exactly one
    output, named [d_path] and bound to the variable [d_path];
    [output_dir()] returns that very name, so [output(output_dir())]
    succeeds.  The constructor succeeds. *)
Theorem output_dir_is_an_output (name_ d : string) (raw_dict : step_raw)
    (syn : bool) (st : ScriptType) (np : option StepNotificationPolicy) :
  raw_output_dir raw_dict = Some d ->
  d <> EmptyString ->
  exists self,
    PipelineStep_init name_ raw_dict syn st np = Ok self
    /\ output_dir self = (Ok (Some (d +:+ "_path")), self)
    /\ output (d +:+ "_path") self = (Ok (d +:+ "_path"), self)
    /\ outputs self = (Ok [(d +:+ "_path", d +:+ "_path")], self).
Proof.
  intros Hd Hne.
  destruct (init_total name_ raw_dict syn st np)
    as (self & Hinit & _ & _ & _ & _ & _ & Hod & _ & _ & Houts).
  exists self. split; [exact Hinit|].
  rewrite Hd in Houts, Hod. rewrite (proj2 (truthy_nonempty d) Hne) in Houts.
  unfold output_dir, output, outputs. unfold_m. rewrite Hod, Houts.
  cbn [Dict.lookup]. by rewrite String.eqb_refl.
Qed.

Lemma output_dir_is_an_output_witness :
  exists self,
    PipelineStep_init "compile"
      {| raw_depends := None; raw_output_dir := Some "binary"; raw_image := None;
         raw_execute := None; raw_registry := None; raw_publish_to := None |}
      false BOURNE_SHELL None = Ok self
    /\ output "binary_path" self = (Ok "binary_path", self).
Proof.
  destruct (output_dir_is_an_output "compile" "binary"
              {| raw_depends := None; raw_output_dir := Some "binary";
                 raw_image := None; raw_execute := None; raw_registry := None;
                 raw_publish_to := None |} false BOURNE_SHELL None eq_refl
              ltac:(discriminate))
    as (self & Hinit & _ & Hout & _).
  exists self. split; [exact Hinit | exact Hout].
Defined.

(** X4: with the empty string as ['output_dir'] the constructor registers
    no output, but [output_dir()] still answers [_path]: reading that
    output raises [KeyError].  Without the key [output_dir()] is [None] and
    there are no outputs. *)
Theorem output_dir_empty_or_absent (name_ : string) (raw_dict : step_raw)
    (syn : bool) (st : ScriptType) (np : option StepNotificationPolicy) :
  (raw_output_dir raw_dict = Some EmptyString ->
   exists self,
     PipelineStep_init name_ raw_dict syn st np = Ok self
     /\ output_dir self = (Ok (Some "_path"), self)
     /\ outputs self = (Ok [], self)
     /\ output "_path" self = (Raise (KeyError "_path"), self))
  /\ (raw_output_dir raw_dict = None ->
      exists self,
        PipelineStep_init name_ raw_dict syn st np = Ok self
        /\ output_dir self = (Ok None, self)
        /\ outputs self = (Ok [], self)).
Proof.
  destruct (init_total name_ raw_dict syn st np)
    as (self & Hinit & _ & _ & _ & _ & _ & Hod & _ & _ & Houts).
  split; intros Hd; exists self; (split; [exact Hinit|]);
    rewrite Hd in Houts, Hod; cbn in Houts;
    unfold output_dir, output, outputs; unfold_m; rewrite Hod, Houts; done.
Qed.

Lemma output_dir_empty_or_absent_witness :
  exists self,
    PipelineStep_init "compile"
      {| raw_depends := None; raw_output_dir := Some EmptyString; raw_image := None;
         raw_execute := None; raw_registry := None; raw_publish_to := None |}
      false BOURNE_SHELL None = Ok self
    /\ output "_path" self = (Raise (KeyError "_path"), self).
Proof.
  destruct (proj1 (output_dir_empty_or_absent "compile"
              {| raw_depends := None; raw_output_dir := Some EmptyString;
                 raw_image := None; raw_execute := None; raw_registry := None;
                 raw_publish_to := None |} false BOURNE_SHELL None) eq_refl)
    as (self & Hinit & _ & _ & Hout).
  exists self. split; [exact Hinit | exact Hout].
Defined.

(** X5: a step built with a declared ['depends'] list depends on exactly
    the names of the list: order and repetitions do not matter, the step's
    own name is not added, and an empty list gives the empty set.
    [depends()] never raises on a constructed step. *)
Theorem declared_depends (name_ : string) (raw_dict : step_raw) (l : list string)
    (syn : bool) (st : ScriptType) (np : option StepNotificationPolicy) :
  raw_depends raw_dict = Some (DependsList l) ->
  exists self,
    PipelineStep_init name_ raw_dict syn st np = Ok self
    /\ depends self = (Ok (list_to_set l), self)
    /\ (forall n, n ∈ (list_to_set l : gset string) <-> n ∈ l)
    /\ (l = [] -> depends self = (Ok ∅, self)).
Proof.
  intros Hd.
  destruct (init_total name_ raw_dict syn st np)
    as (self & Hinit & _ & _ & _ & _ & Hdep & _).
  rewrite Hd in Hdep. cbn [to_set] in Hdep.
  exists self. split; [exact Hinit|].
  assert (Hrun : depends self = (Ok (list_to_set l), self)).
  { unfold depends. unfold_m. by rewrite Hdep. }
  split; [exact Hrun|]. split; [intros n; apply elem_of_list_to_set|].
  intros ->. exact Hrun.
Qed.

Lemma declared_depends_witness :
  exists self,
    PipelineStep_init "test"
      {| raw_depends := Some (DependsList ["compile"; "lint"; "compile"]);
         raw_output_dir := None; raw_image := None;
         raw_execute := None; raw_registry := None; raw_publish_to := None |}
      false BOURNE_SHELL None = Ok self
    /\ depends self = (Ok (list_to_set ["compile"; "lint"; "compile"]), self).
Proof.
  destruct (declared_depends "test"
              {| raw_depends := Some (DependsList ["compile"; "lint"; "compile"]);
                 raw_output_dir := None; raw_image := None;
                 raw_execute := None; raw_registry := None;
                 raw_publish_to := None |}
              ["compile"; "lint"; "compile"] false BOURNE_SHELL None eq_refl)
    as (self & Hinit & Hdep & _).
  exists self. split; [exact Hinit | exact Hdep].
Defined.

(** ** Steps: adding dependencies *)

(** X6: on a constructed step [_add_dependency] never raises; it adds the
    other step's name to the dependency set and touches nothing else
    (name, slots, image and command are as before, so [validate] and
    [execute] answer as before); adding the same step twice is the same as
    adding it once, and the order of two additions does not matter. *)
Theorem add_dependency_algebra (self a b : PipelineStep) (d : gset string) :
  raw_depends (raw self) = Some (DependsSet d) ->
  exists sa sb sab sba,
    _add_dependency a self = (Ok tt, sa)
    /\ _add_dependency b self = (Ok tt, sb)
    /\ _add_dependency b sa = (Ok tt, sab)
    /\ _add_dependency a sb = (Ok tt, sba)
    /\ sab = sba
    /\ _add_dependency a sa = (Ok tt, sa)
    /\ depends sa = (Ok (d ∪ {[ name a ]}), sa)
    /\ depends sab = (Ok (d ∪ {[ name a ]} ∪ {[ name b ]}), sab)
    /\ name sa = name self
    /\ outputs sa = (Ok (_outputs_dict self), sa)
    /\ inputs sa = (Ok (_inputs_dict self), sa)
    /\ fst (validate sa) = fst (validate self)
    /\ (forall prefix, fst (execute prefix sa) = fst (execute prefix self)).
Proof.
  intros Hd.
  exists (with_depends (DependsSet (d ∪ {[ name a ]})) self),
         (with_depends (DependsSet (d ∪ {[ name b ]})) self),
         (with_depends (DependsSet (d ∪ {[ name a ]} ∪ {[ name b ]})) self),
         (with_depends (DependsSet (d ∪ {[ name b ]} ∪ {[ name a ]})) self).
  split; [by apply add_dependency_set|].
  split; [by apply add_dependency_set|].
  split; [by rewrite (add_dependency_set _ b (d ∪ {[ name a ]}))|].
  split; [by rewrite (add_dependency_set _ a (d ∪ {[ name b ]}))|].
  split.
  { by rewrite <- !(assoc_L (∪) d), (comm_L (∪) {[ name a ]}). }
  split.
  { rewrite (add_dependency_set _ a (d ∪ {[ name a ]})) by done.
    by rewrite <- (assoc_L (∪) d), (idemp_L (∪)). }
  destruct self as [n syn st np outs ins [dep odir img exe reg pub]].
  repeat (split; [reflexivity|]). split.
  - unfold validate, image. unfold_m. cbn.
    destruct img as [i|]; [|done]. destruct (truthy i); [|done].
    destruct (negb _); [done|]. by destruct (negb _).
  - intros prefix. by destruct exe as [[x|[|t ts]]|].
Qed.

Lemma add_dependency_algebra_witness :
  exists sa,
    _add_dependency step0 (step_with_image None) = (Ok tt, sa)
    /\ _add_dependency step0 sa = (Ok tt, sa).
Proof.
  destruct (add_dependency_algebra (step_with_image None) step0 step0
              {[ "compile" ]} eq_refl)
    as (sa & sb & sab & sba & Ha & _ & _ & _ & _ & Haa & _).
  exists sa. split; [exact Ha | exact Haa].
Defined.

(** ** Steps: command and command line *)

Lemma path_join_absolute (prefix : list string) (x : string) :
  Str.startswith Posixpath.SEP x = true -> path_join prefix x = x.
Proof.
  intros Hx. destruct prefix as [|a p]; [done|].
  unfold path_join, Posixpath.join. rewrite fold_left_app. cbn [fold_left].
  unfold Posixpath.join_step at 1. by rewrite Hx.
Qed.

Lemma argv_run (self : PipelineStep) : exists argv, _argv self = (Ok argv, self).
Proof.
  unfold _argv. unfold_m.
  destruct (raw_execute (raw self)) as [[a|l]|]; eauto.
Qed.

(** X7: the command line starts with the executable: whenever
    [executable(prefix)] returns [exe], [execute(prefix)] returns [exe]
    followed by the remaining escaped tokens, joined by single spaces; and
    [execute] raises exactly when [executable] does (the declared list is
    empty), with [IndexError].  Neither changes the step. *)
Theorem execute_extends_executable (self : PipelineStep) (prefix : prefix_arg) :
  exists argv,
    _argv self = (Ok argv, self)
    /\ match argv with
       | [] =>
           executable prefix self = (Raise IndexError, self)
           /\ execute prefix self = (Raise IndexError, self)
           /\ raw_execute (raw self) = Some (ExecuteList [])
       | a0 :: rest =>
           executable prefix self = (Ok (path_join (prefix_parts prefix) a0), self)
           /\ execute prefix self
              = (Ok (Str.join " " (path_join (prefix_parts prefix) a0 :: rest)), self)
       end.
Proof.
  destruct self as [n syn st np outs ins [dep odir img exe reg pub]].
  destruct exe as [[a|[|t ts]]|]; eexists; (split; [reflexivity|]); cbn;
    repeat split.
Qed.

(** X8: a command given as an absolute path is not prefixed: if the first
    token of the command (the step's name when none is declared) starts
    with ['/'], [executable] returns it as it is for every prefix, and the
    command line starts with it. *)
Theorem absolute_command_ignores_prefix
    (self : PipelineStep) (prefix : prefix_arg) (a0 : string) (rest : list string) :
  _argv self = (Ok (a0 :: rest), self) ->
  Str.startswith "/" a0 = true ->
  executable prefix self = (Ok a0, self)
  /\ execute prefix self = (Ok (Str.join " " (a0 :: rest)), self).
Proof.
  intros Hargv Habs.
  destruct (execute_extends_executable self prefix) as (argv & Hargv' & H).
  rewrite Hargv in Hargv'. inversion Hargv'; subst argv.
  destruct H as [Hexe Hline].
  rewrite (path_join_absolute _ _ Habs) in Hexe, Hline. done.
Qed.

Lemma absolute_command_ignores_prefix_witness :
  execute (PrefixStr "bin")
    (step_with_execute (Some (ExecuteList [AStr "/usr/bin/make"; AStr "all"])))
  = (Ok "/usr/bin/make all",
     step_with_execute (Some (ExecuteList [AStr "/usr/bin/make"; AStr "all"]))).
Proof.
  exact (proj2 (absolute_command_ignores_prefix
                  (step_with_execute (Some (ExecuteList [AStr "/usr/bin/make"; AStr "all"])))
                  (PrefixStr "bin") "/usr/bin/make" ["all"] eq_refl eq_refl)).
Defined.

(** ** The release transformer: exact effect *)

Lemma step_names_insert (h : list PipelineStep) (l : list ref) (rel : ref)
    (o o1 : PipelineStep) :
  h !! rel = Some o -> name o1 = name o ->
  step_names (<[rel := o1]> h) l = step_names h l.
Proof.
  intros Ho Hname. unfold step_names. f_equal.
  induction l as [|r l IH]; [done|]. cbn [omap list_omap]. rewrite IH.
  destruct (decide (rel = r)) as [<-|Hne].
  - rewrite list_lookup_insert_eq by by eapply lookup_lt_Some.
    rewrite Ho. cbn. by rewrite Hname.
  - by rewrite list_lookup_insert_ne.
Qed.

Lemma step_names_cons (h : list PipelineStep) (r : ref) (l : list ref)
    (s : PipelineStep) :
  h !! r = Some s -> step_names h (r :: l) = {[ name s ]} ∪ step_names h l.
Proof. intros Hs. unfold step_names. cbn [omap list_omap]. by rewrite Hs. Qed.

Section ReleaseExact.
Variable self : Release.ReleaseTraitTransformer.
Variable rel : ref.
Hypothesis Hrel : Release.release_step self = Some rel.

Lemma release_loop_exact (l : list ref) :
  forall (h : list PipelineStep) (ro : list RepositoryConfig) (j : JobVariant)
         (o : PipelineStep) (d : gset string),
    h !! rel = Some o ->
    raw_depends (raw o) = Some (DependsSet d) ->
    Forall (fun r => is_Some (h !! r)) l ->
    for_each l (fun r =>
      let* step := on_steps (deref r) in
      match Release.release_step self with
      | None => raise (AttributeError "release_step")
      | Some rel => on_steps (at_ref rel (_add_dependency step))
      end) {| step_objs := h; repo_objs := ro; job := j |}
    = (Ok tt, {| step_objs := <[rel := with_depends (DependsSet (d ∪ step_names h l)) o]> h;
                 repo_objs := ro; job := j |}).
Proof.
  induction l as [|r l IH]; intros h ro j o d Ho Hd Hvalid.
  - cbn [for_each]. unfold ret, step_names. cbn [omap list_omap list_to_set].
    rewrite (right_id_L ∅ (∪)), (with_depends_id _ _ Hd).
    by rewrite list_insert_id.
  - apply Forall_cons in Hvalid as [[s Hs] Hvalid].
    assert (Hlt : rel < length h) by by eapply lookup_lt_Some.
    set (o1 := with_depends (DependsSet (d ∪ {[ name s ]})) o).
    pose proof (IH (<[rel := o1]> h) ro j o1 (d ∪ {[ name s ]})) as Hrun.
    rewrite (step_names_insert h l rel o o1 Ho eq_refl) in Hrun.
    rewrite list_insert_insert_eq in Hrun.
    rewrite (step_names_cons h r l s Hs), (assoc_L (∪)).
    cbn [for_each]. unfold bind at 1. unfold bind at 1.
    unfold on_steps at 1, deref. cbn [step_objs repo_objs job].
    rewrite Hs. rewrite Hrel in Hrun |- *.
    unfold on_steps at 1, at_ref. cbn [step_objs repo_objs job].
    rewrite Ho. rewrite (add_dependency_set o s d Hd).
    fold o1. apply Hrun.
    + by apply list_lookup_insert_eq.
    + done.
    + eapply Forall_impl; [exact Hvalid|]. intros r' [s' Hs'].
      destruct (decide (rel = r')) as [<-|Hne].
      * rewrite list_lookup_insert_eq; eauto.
      * rewrite list_lookup_insert_ne; eauto.
Qed.

Lemma release_process_exact (w : world) (o : PipelineStep) (d : gset string) :
  step_objs w !! rel = Some o ->
  raw_depends (raw o) = Some (DependsSet d) ->
  steps_registered w ->
  Release.process_pipeline_args self w = release_outcome rel o d w.
Proof.
  destruct w as [h ro j]. unfold steps_registered, release_outcome, main_repository_of.
  cbn [step_objs repo_objs job]. intros Ho Hd Hvalid.
  pose proof (release_loop_exact (map snd (_steps_dict j)) h ro j o d Ho Hd Hvalid)
    as Hrun.
  unfold Release.process_pipeline_args.
  unfold bind at 1. unfold on_job at 1, steps. unfold_m.
  cbn [step_objs repo_objs job].
  rewrite Hrun.
  unfold on_job, main_repository. unfold_m. cbn [step_objs repo_objs job].
  destruct (_main_repository_name j ≫= _) as [main_ref|]; [|done].
  cbn [step_objs repo_objs job].
  destruct (Dict.lookup "repo" (job_raw j)) as [cfg|]; [|done].
  destruct (Dict.mem "trigger" cfg); cbn [negb]; [done|].
  unfold on_repos, at_ref. cbn [step_objs repo_objs job].
  by destruct (ro !! main_ref).
Qed.

End ReleaseExact.

Lemma steps_registered_insert (h : list PipelineStep) (ro ro' : list RepositoryConfig)
    (j : JobVariant) (rel : ref) (o1 : PipelineStep) :
  steps_registered {| step_objs := h; repo_objs := ro; job := j |} ->
  steps_registered {| step_objs := <[rel := o1]> h; repo_objs := ro'; job := j |}.
Proof.
  unfold steps_registered. cbn [step_objs job]. intros Hvalid.
  eapply Forall_impl; [exact Hvalid|]. intros r [s Hs].
  destruct (decide (rel = r)) as [<-|Hne].
  - rewrite list_lookup_insert_eq by by eapply lookup_lt_Some. eauto.
  - rewrite list_lookup_insert_ne by done. eauto.
Qed.

(** X9: [process_pipeline_args] of the release transformer is idempotent:
    on a job whose steps and main repository are in place it succeeds, and
    running it again on the result succeeds and changes nothing. *)
Theorem release_process_idempotent
    (self : Release.ReleaseTraitTransformer) (w : world) (rel : ref)
    (o : PipelineStep) (d : gset string) :
  Release.release_step self = Some rel ->
  step_objs w !! rel = Some o ->
  raw_depends (raw o) = Some (DependsSet d) ->
  steps_registered w ->
  repos_ready w ->
  exists w',
    Release.process_pipeline_args self w = (Ok tt, w')
    /\ Release.process_pipeline_args self w' = (Ok tt, w').
Proof.
  intros Hrel Ho Hd Hvalid Hready.
  rewrite (release_process_exact self rel Hrel w o d Ho Hd Hvalid).
  destruct w as [h ro j]. cbn [step_objs repo_objs job] in Ho.
  assert (Hlt : rel < length h) by by eapply lookup_lt_Some.
  set (l := map snd (_steps_dict j)).
  set (d' := d ∪ step_names h l).
  set (o' := with_depends (DependsSet d') o).
  assert (Hagain :
             <[rel := with_depends (DependsSet (d' ∪ step_names (<[rel := o']> h) l)) o']>
               (<[rel := o']> h) = <[rel := o']> h).
  { rewrite (step_names_insert h l rel o o' Ho eq_refl).
    unfold d'. rewrite <- (assoc_L (∪) d), (idemp_L (∪)).
    rewrite list_insert_insert_eq. reflexivity. }
  assert (Hsecond : forall ro',
             Release.process_pipeline_args self
               {| step_objs := <[rel := o']> h; repo_objs := ro'; job := j |}
             = release_outcome rel o' d'
                 {| step_objs := <[rel := o']> h; repo_objs := ro'; job := j |}).
  { intros ro'. apply (release_process_exact self rel Hrel).
    - by apply list_lookup_insert_eq.
    - done.
    - by apply (steps_registered_insert h ro). }
  unfold repos_ready, main_repository_of in Hready.
  unfold release_outcome, main_repository_of in *.
  cbn [step_objs repo_objs job] in *. fold l d' o' in Hsecond |- *.
  destruct (_main_repository_name j ≫= _) as [main_ref|].
  - destruct Hready as [[m Hm] [cfg Hcfg]]. rewrite Hcfg in *.
    destruct (Dict.mem "trigger" cfg).
    + eexists. split; [reflexivity|]. rewrite Hsecond.
      by rewrite Hagain.
    + rewrite Hm. eexists. split; [reflexivity|]. rewrite Hsecond.
      rewrite Hagain.
      rewrite list_lookup_insert_eq by by eapply lookup_lt_Some.
      by rewrite list_insert_insert_eq.
  - eexists. split; [reflexivity|]. rewrite Hsecond. by rewrite Hagain.
Qed.

Lemma release_process_idempotent_witness :
  exists w',
    Release.process_pipeline_args sample_transformer (sample_world []) = (Ok tt, w')
    /\ Release.process_pipeline_args sample_transformer w' = (Ok tt, w').
Proof.
  apply (release_process_idempotent sample_transformer (sample_world []) 1
           sample_release_step {[ "release" ]}).
  - reflexivity.
  - reflexivity.
  - reflexivity.
  - repeat constructor; simpl; eauto.
  - split; simpl; eauto.
Defined.

(** X10: what [process_pipeline_args] of the release transformer leaves
    alone, whether it succeeds or raises: the job (registry, raw
    configuration, repository names), the number of objects, every step
    other than the release step, the release step's name, slots, image and
    command, and every repository object other than the main one, of which
    at most the trigger flag changes. *)
Theorem release_process_frame
    (self : Release.ReleaseTraitTransformer) (w : world) (rel : ref)
    (o : PipelineStep) (d : gset string) :
  Release.release_step self = Some rel ->
  step_objs w !! rel = Some o ->
  raw_depends (raw o) = Some (DependsSet d) ->
  steps_registered w ->
  exists outcome w' d',
    Release.process_pipeline_args self w = (outcome, w')
    /\ job w' = job w
    /\ length (step_objs w') = length (step_objs w)
    /\ length (repo_objs w') = length (repo_objs w)
    /\ (forall r, r <> rel -> step_objs w' !! r = step_objs w !! r)
    /\ step_objs w' !! rel = Some (with_depends (DependsSet d') o)
    /\ d ⊆ d'
    /\ (forall r, main_repository_of w <> Some r ->
                  repo_objs w' !! r = repo_objs w !! r)
    /\ (forall r m, main_repository_of w = Some r -> repo_objs w !! r = Some m ->
                    repo_objs w' !! r = Some m
                    \/ repo_objs w' !! r = Some (with_trigger false m)).
Proof.
  intros Hrel Ho Hd Hvalid.
  rewrite (release_process_exact self rel Hrel w o d Ho Hd Hvalid).
  assert (Hlt : rel < length (step_objs w)) by by eapply lookup_lt_Some.
  unfold release_outcome.
  set (d' := d ∪ step_names (step_objs w) (map snd (_steps_dict (job w)))).
  assert (Hsteps : forall ro',
    job {| step_objs := <[rel := with_depends (DependsSet d') o]> (step_objs w);
           repo_objs := ro'; job := job w |} = job w
    /\ length (<[rel := with_depends (DependsSet d') o]> (step_objs w))
       = length (step_objs w)
    /\ (forall r, r <> rel ->
          <[rel := with_depends (DependsSet d') o]> (step_objs w) !! r
          = step_objs w !! r)
    /\ <[rel := with_depends (DependsSet d') o]> (step_objs w) !! rel
       = Some (with_depends (DependsSet d') o)
    /\ d ⊆ d').
  { intros ro'. split; [done|]. split; [by rewrite length_insert|].
    split; [intros r Hr; by rewrite list_lookup_insert_ne|].
    split; [by apply list_lookup_insert_eq|]. unfold d'. set_solver. }
  destruct (main_repository_of w) as [main_ref|] eqn:Emain.
  - destruct (Dict.lookup "repo" (job_raw (job w))) as [cfg|].
    + destruct (Dict.mem "trigger" cfg).
      * destruct (Hsteps (repo_objs w)) as (H1 & H2 & H3 & H4 & H5).
        eexists _, _, d'. split; [reflexivity|]. cbn [step_objs repo_objs job].
        repeat (split; [done|]).
        intros r m Hr Hm. by left.
      * destruct (repo_objs w !! main_ref) as [m|] eqn:Em.
        -- destruct (Hsteps (<[main_ref := with_trigger false m]> (repo_objs w)))
             as (H1 & H2 & H3 & H4 & H5).
           eexists _, _, d'. split; [reflexivity|]. cbn [step_objs repo_objs job].
           split; [done|]. split; [done|]. split; [by rewrite length_insert|].
           split; [done|]. split; [done|]. split; [done|]. split.
           ++ intros r Hr. rewrite list_lookup_insert_ne; [done|]. congruence.
           ++ intros r m' Hr Hm'. inversion Hr; subst r. rewrite Em in Hm'.
              inversion Hm'; subst m'. right.
              apply list_lookup_insert_eq. by eapply lookup_lt_Some.
        -- destruct (Hsteps (repo_objs w)) as (H1 & H2 & H3 & H4 & H5).
           eexists _, _, d'. split; [reflexivity|]. cbn [step_objs repo_objs job].
           repeat (split; [done|]).
           intros r m Hr Hm. by left.
    + destruct (Hsteps (repo_objs w)) as (H1 & H2 & H3 & H4 & H5).
      eexists _, _, d'. split; [reflexivity|]. cbn [step_objs repo_objs job].
      repeat (split; [done|]).
      intros r m Hr Hm. by left.
  - destruct (Hsteps (repo_objs w)) as (H1 & H2 & H3 & H4 & H5).
    eexists _, _, d'. split; [reflexivity|]. cbn [step_objs repo_objs job].
    repeat (split; [done|]).
    intros r m Hr Hm. by left.
Qed.

Lemma release_process_frame_witness :
  exists outcome w',
    Release.process_pipeline_args sample_transformer (sample_world []) = (outcome, w')
    /\ job w' = job (sample_world [])
    /\ step_objs w' !! 0 = Some (step_with_image None).
Proof.
  destruct (release_process_frame sample_transformer (sample_world []) 1
              sample_release_step {[ "release" ]})
    as (outcome & w' & d' & Hrun & Hjob & _ & _ & Hother & _).
  - reflexivity.
  - reflexivity.
  - reflexivity.
  - repeat constructor; simpl; eauto.
  - exists outcome, w'. split; [exact Hrun|]. split; [exact Hjob|].
    exact (Hother 0 ltac:(discriminate)).
Defined.

(** X11: two ways in which [process_pipeline_args] of the release
    transformer fails.  Without a prior [inject_steps] there is no
    [release_step]: on a job with at least one registered step the call
    raises [AttributeError] and changes nothing.  With a main repository
    but no ['repo'] entry in the raw job configuration it raises
    [KeyError], after the dependencies have been added to the release
    step. *)
Theorem release_process_failures
    (self : Release.ReleaseTraitTransformer) (w : world) :
  (forall r s,
      Release.release_step self = None ->
      head (map snd (_steps_dict (job w))) = Some r ->
      step_objs w !! r = Some s ->
      Release.process_pipeline_args self w
      = (Raise (AttributeError "release_step"), w))
  /\ (forall rel o d main_ref,
      Release.release_step self = Some rel ->
      step_objs w !! rel = Some o ->
      raw_depends (raw o) = Some (DependsSet d) ->
      steps_registered w ->
      main_repository_of w = Some main_ref ->
      Dict.lookup "repo" (job_raw (job w)) = None ->
      exists w',
        Release.process_pipeline_args self w = (Raise (KeyError "repo"), w')
        /\ repo_objs w' = repo_objs w
        /\ step_objs w' !! rel
           = Some (with_depends
                     (DependsSet (d ∪ step_names (step_objs w)
                                        (map snd (_steps_dict (job w))))) o)).
Proof.
  split.
  - intros r s Hnone Hhead Hs. destruct w as [h ro j].
    cbn [step_objs repo_objs job] in *.
    unfold Release.process_pipeline_args.
    unfold bind at 1. unfold on_job at 1, steps. unfold_m.
    cbn [step_objs repo_objs job].
    destruct (map snd (_steps_dict j)) as [|r' l]; [done|].
    cbn [head] in Hhead. inversion Hhead; subst r'.
    cbn [for_each]. unfold bind at 1. unfold on_steps, deref.
    cbn [step_objs repo_objs job]. rewrite Hs, Hnone. reflexivity.
  - intros rel o d main_ref Hrel Ho Hd Hvalid Hmain Hcfg.
    rewrite (release_process_exact self rel Hrel w o d Ho Hd Hvalid).
    unfold release_outcome. rewrite Hmain, Hcfg.
    eexists. split; [reflexivity|]. cbn [step_objs repo_objs job].
    split; [done|]. apply list_lookup_insert_eq. by eapply lookup_lt_Some.
Qed.

Lemma release_process_failures_witness :
  Release.process_pipeline_args {| Release.release_step := None |} (sample_world [])
  = (Raise (AttributeError "release_step"), sample_world []).
Proof.
  apply (proj1 (release_process_failures {| Release.release_step := None |}
                  (sample_world [])) 0 (step_with_image None));
    reflexivity.
Defined.

(** X12: [inject_steps] of the release transformer always succeeds; it
    creates one new step object, leaves the existing objects and the job
    as they were, yields exactly that step and keeps it as
    [release_step]; the step is named [release], is synthetic, runs as
    Python 3 with the no-notification policy, has no slots, image or
    command, and depends on itself only. *)
Theorem release_inject_steps_spec (self : Release.ReleaseTraitTransformer) (w : world) :
  exists s,
    Release.inject_steps self w
    = (Ok ({| Release.release_step := Some (length (step_objs w)) |},
           [length (step_objs w)]),
       {| step_objs := step_objs w ++ [s]; repo_objs := repo_objs w; job := job w |})
    /\ (forall r x, step_objs w !! r = Some x -> (step_objs w ++ [s]) !! r = Some x)
    /\ (step_objs w ++ [s]) !! length (step_objs w) = Some s
    /\ name s = "release" /\ is_synthetic s = true
    /\ _script_type s = PYTHON3
    /\ _notification_policy s = Some NO_NOTIFICATION
    /\ _outputs_dict s = [] /\ _inputs_dict s = []
    /\ raw_image (raw s) = None /\ raw_execute (raw s) = None
    /\ depends s = (Ok {[ "release" ]}, s).
Proof.
  eexists. split; [reflexivity|].
  split; [intros r x Hx; by apply lookup_app_l_Some|].
  split; [by rewrite lookup_app_r, Nat.sub_diag|].
  repeat split.
Qed.

(** ** The pull-request transformer: exact effect and order of traits *)

Lemma pull_request_process_exact (w : world) (main_ref : ref) (m : RepositoryConfig) :
  main_repository_of w = Some main_ref ->
  repo_objs w !! main_ref = Some m ->
  _main_repository_name (job w) = Some (_logical_name m) ->
  PullRequest.process_pipeline_args w
  = (Ok tt, {| step_objs := step_objs w;
               repo_objs := repo_objs w ++ [pull_request_variant m];
               job := with_repos (<[_logical_name m := length (repo_objs w)]>
                                    (_repos_dict (job w))) (job w) |}).
Proof.
  destruct w as [h ro j]. unfold main_repository_of.
  cbn [step_objs repo_objs job]. intros Hmain Hm Hname.
  assert (Hreg : _repos_dict j !! _logical_name m = Some main_ref).
  { rewrite Hname in Hmain. exact Hmain. }
  unfold PullRequest.process_pipeline_args.
  unfold bind at 1. unfold on_job at 1. cbn [step_objs repo_objs job].
  rewrite main_repository_run, Hmain.
  unfold bind at 1. unfold on_repos at 1, at_ref, logical_name. unfold_m.
  cbn [step_objs repo_objs job]. rewrite Hm.
  unfold pr_repository, on_job, on_repos, deref, alloc. unfold_m.
  cbn [step_objs repo_objs job]. rewrite Hreg.
  cbn [step_objs repo_objs job]. unfold ref in *.
  rewrite (list_insert_id _ _ _ Hm), Hm.
  cbn [step_objs repo_objs job].
  rewrite lookup_app_r by done. rewrite Nat.sub_diag. cbn [lookup list_lookup].
  rewrite insert_app_r_alt by done. rewrite Nat.sub_diag. reflexivity.
Qed.

(** X13: without a main repository the two transformers differ: the
    pull-request transformer raises [AttributeError] (it asks [None] for
    its logical name) and changes nothing, while the release transformer
    succeeds and only adds the dependencies. *)
Theorem transformers_without_main_repository
    (self : Release.ReleaseTraitTransformer) (w : world) (rel : ref)
    (o : PipelineStep) (d : gset string) :
  main_repository_of w = None ->
  Release.release_step self = Some rel ->
  step_objs w !! rel = Some o ->
  raw_depends (raw o) = Some (DependsSet d) ->
  steps_registered w ->
  PullRequest.process_pipeline_args w = (Raise (AttributeError "logical_name"), w)
  /\ exists w',
      Release.process_pipeline_args self w = (Ok tt, w')
      /\ repo_objs w' = repo_objs w /\ job w' = job w.
Proof.
  intros Hmain Hrel Ho Hd Hvalid. split.
  - destruct w as [h ro j]. unfold main_repository_of in Hmain.
    cbn [step_objs repo_objs job] in Hmain.
    unfold PullRequest.process_pipeline_args.
    unfold bind at 1. unfold on_job at 1. cbn [step_objs repo_objs job].
    by rewrite main_repository_run, Hmain.
  - rewrite (release_process_exact self rel Hrel w o d Ho Hd Hvalid).
    unfold release_outcome. rewrite Hmain. eauto.
Qed.

Lemma transformers_without_main_repository_witness :
  PullRequest.process_pipeline_args
    {| step_objs := [step_with_image None; sample_release_step]; repo_objs := [];
       job := {| job_raw := []; _steps_dict := [("compile", 0); ("release", 1)];
                 _repos_dict := ∅; _main_repository_name := None |} |}
  = (Raise (AttributeError "logical_name"),
     {| step_objs := [step_with_image None; sample_release_step]; repo_objs := [];
        job := {| job_raw := []; _steps_dict := [("compile", 0); ("release", 1)];
                  _repos_dict := ∅; _main_repository_name := None |} |}).
Proof.
  apply (transformers_without_main_repository sample_transformer _ 1
           sample_release_step {[ "release" ]}).
  - reflexivity.
  - reflexivity.
  - reflexivity.
  - reflexivity.
  - repeat constructor; simpl; eauto.
Defined.

(** X14: the order of the two transformers decides the trigger flag.  On
    a job whose raw ['repo'] configuration has no ['trigger'] key, running
    the release transformer and then the pull-request transformer leaves a
    pull-request main repository with trigger true; running the
    pull-request transformer first and the release transformer second
    leaves a pull-request main repository with trigger false.  Both orders
    succeed. *)
Theorem transformer_order_decides_trigger
    (self : Release.ReleaseTraitTransformer) (w : world) (rel : ref)
    (o : PipelineStep) (d : gset string)
    (main_ref : ref) (m : RepositoryConfig) (repo_cfg : pydict) :
  Release.release_step self = Some rel ->
  step_objs w !! rel = Some o ->
  raw_depends (raw o) = Some (DependsSet d) ->
  steps_registered w ->
  main_repository_of w = Some main_ref ->
  repo_objs w !! main_ref = Some m ->
  _main_repository_name (job w) = Some (_logical_name m) ->
  Dict.lookup "repo" (job_raw (job w)) = Some repo_cfg ->
  Dict.mem "trigger" repo_cfg = false ->
  (exists w1 w2 r m2,
      Release.process_pipeline_args self w = (Ok tt, w1)
      /\ PullRequest.process_pipeline_args w1 = (Ok tt, w2)
      /\ main_repository_of w2 = Some r
      /\ repo_objs w2 !! r = Some m2
      /\ _is_pull_request m2 = true /\ _trigger m2 = true)
  /\ (exists w1 w2 r m2,
      PullRequest.process_pipeline_args w = (Ok tt, w1)
      /\ Release.process_pipeline_args self w1 = (Ok tt, w2)
      /\ main_repository_of w2 = Some r
      /\ repo_objs w2 !! r = Some m2
      /\ _is_pull_request m2 = true /\ _trigger m2 = false).
Proof.
  intros Hrel Ho Hd Hvalid Hmain Hm Hname Hcfg Htrigger.
  assert (Hlt : main_ref < length (repo_objs w)) by by eapply lookup_lt_Some.
  assert (Hrlt : rel < length (step_objs w)) by by eapply lookup_lt_Some.
  split.
  - rewrite (release_process_exact self rel Hrel w o d Ho Hd Hvalid).
    unfold release_outcome. rewrite Hmain, Hcfg, Htrigger, Hm.
    eexists _, _, (length (repo_objs w)), (pull_request_variant m).
    split; [reflexivity|]. split.
    { rewrite (pull_request_process_exact _ main_ref (with_trigger false m)).
      - reflexivity.
      - exact Hmain.
      - cbn [repo_objs]. by apply list_lookup_insert_eq.
      - exact Hname. }
    cbn [step_objs repo_objs job _logical_name with_trigger].
    rewrite length_insert.
    split.
    { unfold main_repository_of. cbn [job with_repos _main_repository_name _repos_dict].
      rewrite Hname. cbn. by rewrite lookup_insert_eq. }
    split; [|done].
    rewrite lookup_app_r by (rewrite length_insert; lia).
    by rewrite length_insert, Nat.sub_diag.
  - rewrite (pull_request_process_exact w main_ref m Hmain Hm Hname).
    eexists _, _, (length (repo_objs w)), (with_trigger false (pull_request_variant m)).
    split; [reflexivity|].
    assert (Hmain' : main_repository_of
              {| step_objs := step_objs w;
                 repo_objs := repo_objs w ++ [pull_request_variant m];
                 job := with_repos (<[_logical_name m := length (repo_objs w)]>
                                      (_repos_dict (job w))) (job w) |}
            = Some (length (repo_objs w))).
    { unfold main_repository_of. cbn [job with_repos _main_repository_name _repos_dict].
      rewrite Hname. cbn. by rewrite lookup_insert_eq. }
    split.
    { rewrite (release_process_exact self rel Hrel _ o d).
      - unfold release_outcome. rewrite Hmain'.
        cbn [step_objs repo_objs job with_repos job_raw _steps_dict].
        rewrite Hcfg, Htrigger.
        rewrite lookup_app_r by done. rewrite Nat.sub_diag. cbn [lookup list_lookup].
        reflexivity.
      - exact Ho.
      - exact Hd.
      - exact Hvalid. }
    cbn [step_objs repo_objs job].
    split.
    { unfold main_repository_of. cbn [job with_repos _main_repository_name _repos_dict].
      rewrite Hname. cbn. by rewrite lookup_insert_eq. }
    split; [|done].
    rewrite insert_app_r_alt by done. rewrite Nat.sub_diag.
    rewrite lookup_app_r by done. by rewrite Nat.sub_diag.
Qed.

Lemma transformer_order_decides_trigger_witness :
  (exists w1 w2 m2,
      Release.process_pipeline_args sample_transformer (sample_world []) = (Ok tt, w1)
      /\ PullRequest.process_pipeline_args w1 = (Ok tt, w2)
      /\ (r ← main_repository_of w2; repo_objs w2 !! r) = Some m2
      /\ _trigger m2 = true)
  /\ (exists w1 w2 m2,
      PullRequest.process_pipeline_args (sample_world []) = (Ok tt, w1)
      /\ Release.process_pipeline_args sample_transformer w1 = (Ok tt, w2)
      /\ (r ← main_repository_of w2; repo_objs w2 !! r) = Some m2
      /\ _trigger m2 = false).
Proof.
  destruct (transformer_order_decides_trigger sample_transformer (sample_world []) 1
              sample_release_step {[ "release" ]} 0 sample_repo [])
    as [(w1 & w2 & r & m2 & H1 & H2 & Hr & Hm2 & _ & Ht)
        (w1' & w2' & r' & m2' & H1' & H2' & Hr' & Hm2' & _ & Ht')].
  - reflexivity.
  - reflexivity.
  - reflexivity.
  - repeat constructor; simpl; eauto.
  - reflexivity.
  - reflexivity.
  - reflexivity.
  - reflexivity.
  - reflexivity.
  - split.
    + exists w1, w2, m2. split; [exact H1|]. split; [exact H2|].
      split; [|exact Ht]. rewrite Hr. exact Hm2.
    + exists w1', w2', m2'. split; [exact H1'|]. split; [exact H2'|].
      split; [|exact Ht']. rewrite Hr'. exact Hm2'.
Defined.

(** ** util.py: urljoin *)

Section Strip.
Variable c : ascii.

Lemma lstrip_not_startswith (s : string) :
  Str.startswith c (UtilStr.lstrip c s) = false.
Proof.
  induction s as [|d s IH]; [done|]. cbn [UtilStr.lstrip].
  destruct (Ascii.eqb d c) eqn:E; [done|]. cbn [Str.startswith]. exact E.
Qed.

Lemma rstrip_not_endswith (s : string) :
  Str.endswith c (UtilStr.rstrip c s) = false.
Proof.
  induction s as [|d s IH]; [done|]. cbn [UtilStr.rstrip].
  destruct (Ascii.eqb d c) eqn:E; cbn [andb].
  - destruct (UtilStr.rstrip c s) as [|e r] eqn:Er; [done|].
    cbn [Str.is_empty]. exact IH.
  - destruct (UtilStr.rstrip c s) as [|e r] eqn:Er; [cbn; exact E|].
    exact IH.
Qed.

Lemma rstrip_trailing (s : string) :
  UtilStr.rstrip c (s +:+ String c EmptyString) = UtilStr.rstrip c s.
Proof.
  induction s as [|d s IH].
  - change (UtilStr.rstrip c (String c EmptyString) = EmptyString).
    cbn [UtilStr.rstrip Str.is_empty]. by rewrite Ascii.eqb_refl.
  - change (String d s +:+ String c EmptyString)
      with (String d (s +:+ String c EmptyString)).
    cbn [UtilStr.rstrip]. by rewrite IH.
Qed.

Lemma lstrip_leading (s : string) :
  UtilStr.lstrip c (String c s) = UtilStr.lstrip c s.
Proof. cbn [UtilStr.lstrip]. by rewrite Ascii.eqb_refl. Qed.

Lemma lstrip_clean (s : string) :
  Str.startswith c s = false -> UtilStr.lstrip c s = s.
Proof. destruct s as [|d s]; [done|]. cbn. by intros ->. Qed.

Lemma rstrip_clean (s : string) :
  Str.endswith c s = false -> UtilStr.rstrip c s = s.
Proof.
  induction s as [|d s IH]; [done|]. intros Hend.
  cbn [UtilStr.rstrip]. destruct s as [|e s].
  - cbn in *. by rewrite Hend.
  - rewrite IH by exact Hend. cbn [Str.is_empty]. by rewrite andb_false_r.
Qed.
End Strip.

Lemma urljoin_parts (first last : string) (middle : list string) :
  UtilStr.urljoin (first :: middle ++ [last])
  = Ok (Str.join "/" (UtilStr.rstrip "/" first
                        :: List.map (UtilStr.strip "/") middle
                        ++ [UtilStr.lstrip "/" last])).
Proof.
  destruct middle as [|m middle]; [reflexivity|].
  unfold UtilStr.urljoin. cbn [app].
  change (m :: middle ++ [last]) with ((m :: middle) ++ [last]).
  destruct ((m :: middle) ++ [last]) as [|x xs] eqn:E; [done|].
  unfold UtilStr.middle_and_last. rewrite <- E.
  rewrite removelast_last, last_last. reflexivity.
Qed.

(** X15: [urljoin] puts exactly one slash between two parts: the result of
    [urljoin(a, b)] is [a] without its trailing slashes, one slash, and [b]
    without its leading slashes, where the left piece does not end and the
    right piece does not start with a slash; parts that have no slash at
    their joint are simply joined.  A single part is returned as it is,
    slashes included, and no part at all raises [IndexError]. *)
Theorem urljoin_two_parts (a b : string) :
  UtilStr.urljoin [a; b]
  = Ok (UtilStr.rstrip "/" a +:+ "/" +:+ UtilStr.lstrip "/" b)
  /\ Str.endswith "/" (UtilStr.rstrip "/" a) = false
  /\ Str.startswith "/" (UtilStr.lstrip "/" b) = false
  /\ (Str.endswith "/" a = false -> Str.startswith "/" b = false ->
      UtilStr.urljoin [a; b] = Ok (a +:+ "/" +:+ b))
  /\ UtilStr.urljoin [a] = Ok a
  /\ UtilStr.urljoin [] = Raise IndexError.
Proof.
  split; [reflexivity|].
  split; [apply rstrip_not_endswith|].
  split; [apply lstrip_not_startswith|].
  split; [|done].
  intros Ha Hb. cbn. by rewrite (rstrip_clean _ _ Ha), (lstrip_clean _ _ Hb).
Qed.

Lemma urljoin_two_parts_witness :
  UtilStr.urljoin ["https://host"; "api"] = Ok "https://host/api".
Proof.
  apply (proj1 (proj2 (proj2 (proj2 (urljoin_two_parts "https://host" "api")))));
    reflexivity.
Defined.

(** X16: slashes at the joints do not matter to [urljoin] when there are
    at least two parts: a trailing slash added to the first part, or a
    leading slash added to the last part, gives the same result. *)
Theorem urljoin_ignores_joint_slashes
    (first last : string) (middle : list string) :
  UtilStr.urljoin ((first +:+ "/") :: middle ++ [last])
  = UtilStr.urljoin (first :: middle ++ [last])
  /\ UtilStr.urljoin (first :: middle ++ [String "/" last])
     = UtilStr.urljoin (first :: middle ++ [last]).
Proof.
  rewrite !urljoin_parts. split.
  - by rewrite (rstrip_trailing "/" first).
  - by rewrite (lstrip_leading "/" last).
Qed.

(** ** util.py: random_str *)

Lemma string_length_app (a b : string) :
  String.length (a +:+ b) = String.length a + String.length b.
Proof. induction a as [|c a IH]; [done|]. cbn. by rewrite <- IH. Qed.

Lemma choice_lowercase (i : nat) :
  Str.contains (UtilStr.choice i) UtilStr.ascii_lowercase = true.
Proof.
  unfold UtilStr.choice.
  assert (Hlt : i mod 26 < 26) by (apply Nat.mod_upper_bound; lia).
  destruct (i mod 26) as [|n]; [reflexivity|].
  do 25 (destruct n as [|n]; [reflexivity|]). lia.
Qed.

Lemma random_chars_shape (draws : nat -> nat) (n k : nat) :
  String.length (UtilStr.random_chars draws k n) = n
  /\ Str.all (fun c => Str.contains c UtilStr.ascii_lowercase)
       (UtilStr.random_chars draws k n) = true.
Proof.
  revert k. induction n as [|n IH]; intros k; [done|].
  destruct (IH (S k)) as [Hlen Hall]. cbn [UtilStr.random_chars Str.all String.length].
  rewrite Hlen, Hall, choice_lowercase. done.
Qed.

(** X17: whatever the random draws, [random_str(prefix, length)] starts
    with the prefix, continues with lower-case ASCII letters only, and has
    [length] characters in all, unless the prefix alone is longer, in which
    case the result is the prefix; without a prefix (or with the empty
    one) it is [length] lower-case letters, none for a negative length. *)
Theorem random_str_shape (draws : nat -> nat) (prefix : option string) (length_ : Z) :
  exists tail,
    UtilStr.random_str draws prefix length_ = default EmptyString prefix +:+ tail
    /\ Str.all (fun c => Str.contains c UtilStr.ascii_lowercase) tail = true
    /\ String.length (UtilStr.random_str draws prefix length_)
       = Nat.max (String.length (default EmptyString prefix)) (Z.to_nat length_)
    /\ (Z.of_nat (String.length (default EmptyString prefix)) >= length_ ->
        tail = EmptyString)%Z.
Proof.
  unfold UtilStr.random_str.
  assert (Hnil : forall k n, n = 0 -> UtilStr.random_chars draws k n = EmptyString)
    by (intros k n ->; reflexivity).
  destruct prefix as [p|]; cbn [default id].
  - destruct p as [|c p]; cbn [truthy Str.is_empty negb].
    + destruct (random_chars_shape draws (Z.to_nat length_) 0) as [Hlen Hall].
      eexists. split; [reflexivity|]. split; [exact Hall|].
      split; [rewrite Hlen; cbn; lia|].
      intros Hge. apply Hnil. cbn in Hge. lia.
    + set (q := String c p).
      destruct (random_chars_shape draws
                  (Z.to_nat (length_ - Z.of_nat (String.length q))) 0) as [Hlen Hall].
      eexists. split; [reflexivity|]. split; [exact Hall|].
      split; [rewrite string_length_app, Hlen; lia|].
      intros Hge. apply Hnil. lia.
  - destruct (random_chars_shape draws (Z.to_nat length_) 0) as [Hlen Hall].
    eexists. split; [reflexivity|]. split; [exact Hall|].
    split; [rewrite Hlen; cbn; lia|].
    intros Hge. apply Hnil. cbn in Hge. lia.
Qed.

Lemma random_str_shape_witness :
  exists tail,
    UtilStr.random_str (fun i => i) (Some "release-") 6 = "release-" +:+ tail
    /\ tail = EmptyString.
Proof.
  destruct (random_str_shape (fun i => i) (Some "release-") 6)
    as (tail & Heq & _ & _ & Hshort).
  exists tail. split; [exact Heq|]. apply Hshort. cbn. lia.
Defined.

(** ** util.py: FluentIterable *)

Section FluentProps.
Context {A : Type}.

Lemma last_op_snoc (pre : list (unit -> list A)) (op : unit -> list A) :
  Fluent.last_op {| Fluent.ops := pre ++ [op] |}
  = (Ok op, {| Fluent.ops := pre ++ [op] |}).
Proof.
  unfold Fluent.last_op. unfold_m. cbn [Fluent.ops].
  rewrite map_app. cbn [List.map]. by rewrite last_last.
Qed.

Lemma fluent_chain_from (stages : list (@Fluent.stage A)) :
  forall (pre : list (unit -> list A)) (op : unit -> list A),
  exists added op',
    for_each stages Fluent.call {| Fluent.ops := pre ++ [op] |}
    = (Ok tt, {| Fluent.ops := (pre ++ [op]) ++ added ++ [op'] |})
      /\ op' tt = fold_left Fluent.run_stage stages (op tt)
      /\ S (length added) = length stages
    \/ stages = []
       /\ for_each stages Fluent.call {| Fluent.ops := pre ++ [op] |}
          = (Ok tt, {| Fluent.ops := pre ++ [op] |}).
Proof.
  induction stages as [|s stages IH]; intros pre op.
  - exists [], op. right. done.
  - set (op1 := match s with
                | Fluent.Filter f => fun _ : unit => List.filter f (op tt)
                | Fluent.Map g => fun _ : unit => List.map g (op tt)
                end).
    assert (Hstep : Fluent.call s {| Fluent.ops := pre ++ [op] |}
                    = (Ok tt, {| Fluent.ops := (pre ++ [op]) ++ [op1] |})).
    { destruct s; cbn [Fluent.call]; unfold Fluent.filter, Fluent.map;
        unfold bind at 1; rewrite last_op_snoc; reflexivity. }
    assert (Hop1 : op1 tt = Fluent.run_stage (op tt) s) by by destruct s.
    cbn [for_each]. unfold bind at 1. rewrite Hstep.
    destruct (IH (pre ++ [op]) op1) as (added & op' & [(Hrun & Hval & Hlen)|[-> Hrun]]).
    + exists (op1 :: added), op'. left. split.
      { rewrite Hrun. by rewrite <- !(assoc_L (++)). }
      split; [cbn [fold_left]; by rewrite <- Hop1|]. cbn. lia.
    + exists [], op1. left. split; [rewrite Hrun; done|].
      split; [cbn [fold_left]; by rewrite <- Hop1|]. done.
Qed.

(** X18: a chain of [filter] and [map] calls on a [FluentIterable] never
    fails, keeps every earlier operation and adds one per call; what
    [as_generator] then yields is the items put through the calls in the
    order in which they were chained. *)
Theorem fluent_chain (items : list A) (stages : list (@Fluent.stage A)) :
  exists self',
    for_each stages Fluent.call (Fluent.init items) = (Ok tt, self')
    /\ Fluent.as_generator self'
       = (Ok (fold_left Fluent.run_stage stages items), self')
    /\ length (Fluent.ops self') = S (length stages)
    /\ Fluent.as_generator (Fluent.init items) = (Ok items, Fluent.init items).
Proof.
  unfold Fluent.init.
  destruct (fluent_chain_from stages [] (fun _ => items))
    as (added & op' & [(Hrun & Hval & Hlen)|[-> Hrun]]).
  - eexists. split; [exact Hrun|].
    split.
    { unfold Fluent.as_generator. unfold bind at 1.
      rewrite (assoc_L (++)). rewrite last_op_snoc. unfold ret. by rewrite Hval. }
    split; [|done]. cbn [Fluent.ops]. rewrite !length_app. cbn. lia.
  - eexists. split; [exact Hrun|]. done.
Qed.

End FluentProps.

(** ** util.py: more on merge_dicts *)

Lemma dict_mem_set {V} (k k' : string) (v : V) (d : list (string * V)) :
  Dict.mem k' (Dict.set k v d) = String.eqb k' k || Dict.mem k' d.
Proof.
  unfold Dict.mem. destruct (String.eqb_spec k' k) as [->|Hne].
  - by rewrite dict_lookup_set_eq.
  - by rewrite dict_lookup_set_ne.
Qed.

Lemma dict_keys_set {V} (k : string) (v : V) (d : list (string * V)) :
  Dict.keys (Dict.set k v d)
  = if Dict.mem k d then Dict.keys d else Dict.keys d ++ [k].
Proof.
  unfold Dict.mem, Dict.keys. induction d as [|[k' v'] d IH]; [done|].
  cbn [Dict.set Dict.lookup]. destruct (String.eqb k k') eqn:E; [done|].
  cbn [List.map fst]. rewrite IH. by destruct (Dict.lookup k d).
Qed.

Lemma dict_merge_keys (lists : bool) (other : pydict) :
  NoDup (Dict.keys other) ->
  forall base : pydict,
    Dict.keys (Util.dict_merge lists other base)
    = Dict.keys base
        ++ List.filter (fun k => negb (Dict.mem k base)) (Dict.keys other).
Proof.
  induction other as [|[k0 v0] other IH]; intros Hnd base.
  - cbn. by rewrite app_nil_r.
  - change (Dict.keys ((k0, v0) :: other)) with (k0 :: Dict.keys other) in *.
    apply NoDup_cons in Hnd as [Hk0 Hnd].
    assert (Hfilter : forall x : pyval,
               List.filter (fun k => negb (Dict.mem k (Dict.set k0 x base)))
                 (Dict.keys other)
               = List.filter (fun k => negb (Dict.mem k base)) (Dict.keys other)).
    { intros x. apply filter_ext_in. intros k Hk. rewrite dict_mem_set.
      destruct (String.eqb_spec k k0) as [->|Hne]; [|done].
      exfalso. apply Hk0. by apply list_elem_of_In. }
    cbn [Util.dict_merge List.filter].
    destruct (Dict.lookup k0 base) as [bv|] eqn:Eb.
    + rewrite (IH Hnd), Hfilter, dict_keys_set. unfold Dict.mem. by rewrite Eb.
    + rewrite (IH Hnd), Hfilter, dict_keys_set. unfold Dict.mem. rewrite Eb.
      cbn [negb]. by rewrite <- (assoc_L (++)).
Qed.

Lemma dict_merge_into_disjoint (lists : bool) (other : pydict) :
  NoDup (Dict.keys other) ->
  forall base : pydict,
    (forall k, k ∈ Dict.keys other -> Dict.mem k base = false) ->
    Util.dict_merge lists other base = base ++ other.
Proof.
  induction other as [|[k0 v0] other IH]; intros Hnd base Hdisj.
  - cbn. by rewrite app_nil_r.
  - change (Dict.keys ((k0, v0) :: other)) with (k0 :: Dict.keys other) in *.
    apply NoDup_cons in Hnd as [Hk0 Hnd].
    cbn [Util.dict_merge].
    assert (Hfresh : Dict.mem k0 base = false)
      by (apply Hdisj, elem_of_cons; by left).
    rewrite (proj1 (dict_mem_lookup _ _) Hfresh), (dict_set_fresh _ _ _ Hfresh).
    rewrite (IH Hnd).
    + by rewrite <- (assoc_L (++)).
    + intros k Hk. rewrite <- (dict_set_fresh _ _ _ Hfresh), dict_mem_set.
      rewrite (Hdisj k) by (apply elem_of_cons; by right).
      destruct (String.eqb_spec k k0) as [->|Hne]; [done|done].
Qed.

(** X19: [merge_dicts] keeps the order of keys: the merged mapping lists
    the keys of [base] in their order, followed by the keys of [other]
    that [base] does not have, in the order of [other]; this holds for
    both list semantics. *)
Theorem merge_dicts_key_order (base other : pydict) :
  NoDup (Dict.keys other) ->
  forall ls, ls = Util.LsMerge \/ ls = Util.LsNone ->
  exists merged,
    Util.merge_dicts (PyDict base) (PyDict other) ls = Ok (PyDict merged)
    /\ Dict.keys merged
       = Dict.keys base
           ++ List.filter (fun k => negb (Dict.mem k base)) (Dict.keys other).
Proof.
  intros Hnd ls [-> | ->]; cbn [Util.merge_dicts Util.not_none];
    rewrite value_strategy_dict; eexists; (split; [reflexivity|]);
    by apply dict_merge_keys.
Qed.

Lemma merge_dicts_key_order_witness :
  exists merged,
    Util.merge_dicts (PyDict sample_defaults) (PyDict sample_user_config) Util.LsMerge
    = Ok (PyDict merged)
    /\ Dict.keys merged = ["policies"; "channels"; "retries"; "notify"].
Proof.
  destruct (merge_dicts_key_order sample_defaults sample_user_config) with Util.LsMerge
    as (merged & Hrun & Hkeys).
  - apply (bool_decide_unpack (NoDup (Dict.keys sample_user_config))).
    vm_compute. exact I.
  - by left.
  - exists merged. split; [exact Hrun|]. rewrite Hkeys. reflexivity.
Defined.

(** X20: the empty mapping is neutral for [merge_dicts]: merging an empty
    [other] into [base] returns [base], and merging [other] into an empty
    [base] returns [other], under both list semantics. *)
Theorem merge_dicts_empty (d : pydict) :
  (forall ls, ls = Util.LsMerge \/ ls = Util.LsNone ->
      Util.merge_dicts (PyDict d) (PyDict []) ls = Ok (PyDict d))
  /\ (NoDup (Dict.keys d) ->
      forall ls, ls = Util.LsMerge \/ ls = Util.LsNone ->
      Util.merge_dicts (PyDict []) (PyDict d) ls = Ok (PyDict d)).
Proof.
  split.
  - intros ls [-> | ->]; reflexivity.
  - intros Hnd ls [-> | ->]; cbn [Util.merge_dicts Util.not_none];
      rewrite value_strategy_dict, (dict_merge_into_disjoint _ d Hnd []); done.
Qed.

Lemma merge_dicts_empty_witness :
  Util.merge_dicts (PyDict []) (PyDict sample_user_config) Util.LsMerge
  = Ok (PyDict sample_user_config).
Proof.
  apply (proj2 (merge_dicts_empty sample_user_config)).
  - apply (bool_decide_unpack (NoDup (Dict.keys sample_user_config))).
    vm_compute. exact I.
  - by left.
Defined.



Lemma filter_none {A} (f : A -> bool) (l : list A) :
  (forall e, In e l -> f e = false) -> List.filter f l = [].
Proof.
  induction l as [|x l IH]; [done|]. intros Hall. cbn [List.filter].
  rewrite (Hall x) by by left. apply IH. intros e He. apply Hall. by right.
Qed.

(** X22: the merged list: the elements of [base] come first, unchanged and
    in order; every element of the result is an element of [base] or of
    [other]; no element of [other] is lost, each is in the result or
    equals an element of [base]; and when every element of [other] equals
    one of [base], the result is [base]. *)
Theorem list_merge_contents (base other : list pyval) :
  take (length base) (Util.list_merge base other) = base
  /\ (forall e, e ∈ Util.list_merge base other -> e ∈ base \/ e ∈ other)
  /\ (forall e, e ∈ other ->
                e ∈ Util.list_merge base other \/ Util.py_in e base = true)
  /\ ((forall e, e ∈ other -> Util.py_in e base = true) ->
      Util.list_merge base other = base)
  /\ Util.list_merge base [] = base
  /\ Util.list_merge [] other = other.
Proof.
  unfold Util.list_merge.
  split; [by rewrite take_app_length|].
  split.
  { intros e He. apply elem_of_app in He as [He|He]; [by left|].
    apply list_merge_new_elements in He as [He _]. by right. }
  split.
  { intros e He. destruct (Util.py_in e base) eqn:Ein; [by right|]. left.
    apply elem_of_app. right. apply list_elem_of_In, filter_In.
    split; [by apply list_elem_of_In|]. by rewrite Ein. }
  split.
  { intros Hall. rewrite filter_none; [by rewrite app_nil_r|].
    intros e He. apply list_elem_of_In in He. by rewrite (Hall e He). }
  split; [by rewrite app_nil_r|].
  cbn. induction other as [|e other IH]; [done|]. cbn. by rewrite IH.
Qed.

Lemma list_merge_contents_witness :
  Util.list_merge [PyAtom (AInt 1); PyAtom (AStr "a")]
    [PyAtom (ABool true); PyAtom (AStr "a")]
  = [PyAtom (AInt 1); PyAtom (AStr "a")].
Proof.
  apply (proj1 (proj2 (proj2 (proj2 (list_merge_contents
           [PyAtom (AInt 1); PyAtom (AStr "a")]
           [PyAtom (ABool true); PyAtom (AStr "a")]))))).
  intros e He. apply list_elem_of_In in He.
  destruct He as [<-|[<-|[]]]; reflexivity.
Defined.

(** ** util.py: merging a mapping with itself *)

Lemma wf_list (l : list pyval) : wf_val (PyList l) <-> Forall wf_val l.
Proof.
  induction l as [|x l IH]; [by split|]. cbn [wf_val] in *.
  rewrite Forall_cons. by rewrite <- IH.
Qed.

Lemma wf_dict (d : pydict) :
  wf_val (PyDict d)
  <-> NoDup (Dict.keys d) /\ Forall (fun kv => wf_val (snd kv)) d.
Proof.
  cbn [wf_val]. apply and_iff_compat_l.
  induction d as [|[k x] d IH]; [by split|].
  rewrite Forall_cons. cbn [snd]. by rewrite <- IH.
Qed.

Lemma dict_lookup_in {V} (k : string) (v : V) (d : list (string * V)) :
  NoDup (Dict.keys d) -> (k, v) ∈ d -> Dict.lookup k d = Some v.
Proof.
  unfold Dict.keys. induction d as [|[k' v'] d IH]; intros Hnd Hin.
  - by apply elem_of_nil in Hin.
  - cbn [List.map fst] in Hnd. apply NoDup_cons in Hnd as [Hk' Hnd].
    cbn [Dict.lookup]. apply elem_of_cons in Hin as [Heq|Hin].
    + inversion Heq; subst. by rewrite String.eqb_refl.
    + destruct (String.eqb_spec k k') as [->|Hne]; [|by apply IH].
      exfalso. apply Hk'. apply list_elem_of_fmap. by exists (k', v).
Qed.

Lemma dict_set_same {V} (k : string) (v : V) (d : list (string * V)) :
  Dict.lookup k d = Some v -> Dict.set k v d = d.
Proof.
  induction d as [|[k' v'] d IH]; [done|]. cbn [Dict.lookup Dict.set].
  destruct (String.eqb_spec k k') as [->|Hne].
  - by intros [= ->].
  - intros Hl. by rewrite IH.
Qed.

Lemma atom_eq_refl (a : pyatom) : Util.atom_eq a a = true.
Proof.
  destruct a as [|b|z|s]; cbn.
  - done.
  - by destruct b.
  - apply Z.eqb_refl.
  - apply String.eqb_refl.
Qed.

(** [==] is reflexive on well-formed values. *)
Lemma py_eq_refl (v : pyval) : wf_val v -> Util.py_eq v v = true.
Proof.
  induction v as [a|l IH|d IH] using pyval_nested_ind; intros Hwf.
  - apply atom_eq_refl.
  - apply wf_list in Hwf. cbn [Util.py_eq].
    induction l as [|x l IHl]; [done|].
    apply Forall_cons in IH as [Hx IH]. apply Forall_cons in Hwf as [Hwx Hwf].
    rewrite (Hx Hwx). cbn [andb]. by apply IHl.
  - apply wf_dict in Hwf as [Hnd Hwf]. cbn [Util.py_eq].
    rewrite Nat.eqb_refl. cbn [andb].
    assert (Hsub : forall kv, kv ∈ d -> kv ∈ d) by done. revert Hsub.
    generalize d at 1 4 as d'. intros d'.
    induction d' as [|[k x] d' IHd']; intros Hsub; [done|].
    assert (Hin : (k, x) ∈ d) by (apply Hsub, elem_of_cons; by left).
    rewrite (dict_lookup_in k x d Hnd Hin).
    rewrite Forall_forall in IH, Hwf.
    pose proof (IH (k, x) Hin (Hwf (k, x) Hin)) as Hx. cbn [snd] in Hx.
    rewrite Hx.
    cbn [andb]. apply IHd'. intros kv Hkv. apply Hsub, elem_of_cons. by right.
Qed.

Lemma py_in_self (l : list pyval) (e : pyval) :
  wf_val e -> e ∈ l -> Util.py_in e l = true.
Proof.
  intros Hwf Hin. unfold Util.py_in. apply existsb_exists.
  exists e. split; [by apply list_elem_of_In | by apply py_eq_refl].
Qed.

Lemma dict_merge_same (lists : bool) (other : pydict) :
  forall base : pydict,
    (forall k v, (k, v) ∈ other ->
                 Dict.lookup k base = Some v /\ Util.value_strategy lists v v = v) ->
    Util.dict_merge lists other base = base.
Proof.
  induction other as [|[k v] other IH]; intros base Hall; [done|].
  cbn [Util.dict_merge].
  destruct (Hall k v) as [Hl Hv]; [apply elem_of_cons; by left|].
  rewrite Hl, Hv, (dict_set_same _ _ _ Hl). apply IH.
  intros k' v' Hin. apply Hall, elem_of_cons. by right.
Qed.

Lemma value_strategy_self (lists : bool) (v : pyval) :
  wf_val v -> Util.value_strategy lists v v = v.
Proof.
  induction v as [a|l IH|d IH] using pyval_nested_ind; intros Hwf.
  - cbn [Util.value_strategy]. by destruct (negb _).
  - apply wf_list in Hwf. cbn [Util.value_strategy Util.type_compatible negb].
    destruct lists; [|done]. f_equal. unfold Util.list_merge.
    rewrite filter_none; [by rewrite app_nil_r|].
    intros e He. rewrite py_in_self; [done| |by apply list_elem_of_In].
    rewrite Forall_forall in Hwf. apply Hwf. by apply list_elem_of_In.
  - rewrite value_strategy_dict. f_equal.
    apply wf_dict in Hwf as [Hnd Hwf]. apply dict_merge_same.
    intros k v Hin. split; [by apply dict_lookup_in|].
    rewrite Forall_forall in IH, Hwf.
    apply (IH (k, v) Hin). apply (Hwf (k, v) Hin).
Qed.

(** X23: merging a mapping with itself changes nothing: for a mapping
    whose keys are distinct at every depth, [merge_dicts(d, d)] returns
    [d], under both list semantics (a list merged with itself gains no
    element, because every element equals itself). *)
Theorem merge_dicts_idempotent (d : pydict) :
  wf_val (PyDict d) ->
  Util.merge_dicts (PyDict d) (PyDict d) Util.LsMerge = Ok (PyDict d)
  /\ Util.merge_dicts (PyDict d) (PyDict d) Util.LsNone = Ok (PyDict d).
Proof.
  intros Hwf. cbn [Util.merge_dicts Util.not_none].
  by rewrite !(value_strategy_self _ _ Hwf).
Qed.

Lemma merge_dicts_idempotent_witness :
  Util.merge_dicts (PyDict sample_defaults) (PyDict sample_defaults) Util.LsMerge
  = Ok (PyDict sample_defaults).
Proof.
  apply merge_dicts_idempotent.
  cbn [wf_val sample_defaults].
  repeat split;
    match goal with
    | |- NoDup ?l => apply (bool_decide_unpack (NoDup l)); vm_compute; exact I
    end.
Defined.

(** ** container/registry.py: what normalisation adds *)

Lemma split_no_sep (sep : ascii) (s : string) :
  Str.contains sep s = false -> Str.split sep s = [s].
Proof.
  induction s as [|c s IH]; [done|]. cbn [Str.contains Str.split].
  rewrite (Ascii.eqb_sym sep c). destruct (Ascii.eqb c sep); [done|].
  intros Hs. by rewrite (IH Hs).
Qed.

Lemma split_has_sep (sep : ascii) (s : string) :
  Str.contains sep s = true ->
  exists p q rest, Str.split sep s = p :: q :: rest.
Proof.
  induction s as [|c s IH]; [done|]. cbn [Str.contains Str.split].
  rewrite (Ascii.eqb_sym sep c). pose proof (split_nonempty sep s) as Hne.
  destruct (Ascii.eqb c sep).
  - intros _. destruct (Str.split sep s) as [|q rest]; [done|]. eauto.
  - intros Hs. destruct (IH Hs) as (p & q & rest & ->). eauto.
Qed.

Lemma reference_host_registry (rest : string) :
  reference_host ("registry-1.docker.io" +:+ String "/" rest) = "registry-1.docker.io".
Proof. unfold reference_host. by rewrite split_prefix. Qed.

(** X24: what [normalise_image_reference] adds.  A reference without
    ['@'] whose host part has a dot is returned as it is; otherwise the
    default registry host is put in front, together with [library] when
    the reference has no slash.  In every case the result ends with the
    input, and the host part of a result without ['@'] has a dot.  An
    argument that is not a string raises [Failure]. *)
Theorem normalise_image_reference_shape (s : string) :
  (Str.contains "@" s = false ->
   (Str.contains "." (reference_host s) = true ->
    Registry.normalise_image_reference (PyAtom (AStr s)) = Ok s)
   /\ (Str.contains "." (reference_host s) = false ->
       Str.contains "/" s = false ->
       Registry.normalise_image_reference (PyAtom (AStr s))
       = Ok ("registry-1.docker.io/library/" +:+ s))
   /\ (Str.contains "." (reference_host s) = false ->
       Str.contains "/" s = true ->
       Registry.normalise_image_reference (PyAtom (AStr s))
       = Ok ("registry-1.docker.io/" +:+ s))
   /\ exists r,
       Registry.normalise_image_reference (PyAtom (AStr s)) = Ok r
       /\ Str.contains "@" r = false
       /\ Str.contains "." (reference_host r) = true)
  /\ (exists r added,
       Registry.normalise_image_reference (PyAtom (AStr s)) = Ok r
       /\ r = added +:+ s)
  /\ (forall v, (forall x, v <> PyAtom (AStr x)) ->
                Registry.normalise_image_reference v = Raise Failure).
Proof.
  split; [|split].
  - intros Hat. rewrite normalise_image_reference_eq, Hat.
    unfold reference_host.
    pose proof (split_nonempty "/" s) as Hne.
    destruct (Str.contains "/" s) eqn:Hslash.
    + destruct (split_has_sep "/" s Hslash) as (p & q & rest & Eparts).
      rewrite Eparts. cbn [hd].
      pose proof (split_nonempty ":" p) as Hne'.
      destruct (Str.split ":" p) as [|host hosts] eqn:Ehost; [done|]. cbn [hd].
      destruct (Str.contains "." host) eqn:Edot.
      * split; [done|]. split; [done|]. split; [done|].
        exists s. split; [done|]. split; [done|].
        by rewrite Eparts; cbn [hd]; rewrite Ehost.
      * split; [done|]. split; [done|]. split; [done|].
        eexists. split; [reflexivity|]. split.
        { rewrite contains_app, Hat. reflexivity. }
        change ("registry-1.docker.io/" +:+ s)
          with ("registry-1.docker.io" +:+ String "/" s).
        by rewrite split_prefix.
    + rewrite (split_no_sep "/" s Hslash). cbn [hd].
      pose proof (split_nonempty ":" s) as Hne'.
      destruct (Str.split ":" s) as [|host hosts] eqn:Ehost; [done|]. cbn [hd].
      destruct (Str.contains "." host) eqn:Edot.
      * split; [done|]. split; [done|]. split; [done|].
        exists s. split; [done|]. split; [done|].
        by rewrite (split_no_sep "/" s Hslash); cbn [hd]; rewrite Ehost.
      * split; [done|]. split; [done|]. split; [done|].
        eexists. split; [reflexivity|]. split.
        { rewrite contains_app, Hat. reflexivity. }
        change ("registry-1.docker.io/library/" +:+ s)
          with ("registry-1.docker.io" +:+ String "/" ("library/" +:+ s)).
        by rewrite split_prefix.
  - rewrite normalise_image_reference_eq.
    destruct (Str.contains "@" s); [by exists s, EmptyString|].
    destruct (Str.split "/" s) as [|p rest]; [by exists s, EmptyString|].
    destruct (Str.split ":" p) as [|host hosts]; [by exists s, EmptyString|].
    destruct (Str.contains "." host); [by exists s, EmptyString|].
    destruct rest; eexists _, _; split; reflexivity.
  - intros v Hv. destruct v as [[| | |x]| |]; try reflexivity.
    by destruct (Hv x).
Qed.

Lemma normalise_image_reference_shape_witness :
  Registry.normalise_image_reference (PyAtom (AStr "org/image:1.0"))
  = Ok "registry-1.docker.io/org/image:1.0".
Proof.
  apply (proj1 (proj2 (proj2 (proj1 (normalise_image_reference_shape "org/image:1.0")
                                eq_refl))));
    reflexivity.
Defined.

(** ** util.py: where the list merge deduplicates *)

Lemma py_in_app (e : pyval) (l1 l2 : list pyval) :
  Util.py_in e (l1 ++ l2) = Util.py_in e l1 || Util.py_in e l2.
Proof. unfold Util.py_in. apply existsb_app. Qed.

Lemma no_repeats_cons (x : pyval) (l : list pyval) :
  no_repeats (x :: l) = true ->
  (forall y, In y l -> Util.py_eq x y = false) /\ no_repeats l = true.
Proof.
  cbn [no_repeats]. intros H. apply andb_prop in H as [Hx Hl]. split; [|done].
  intros y Hy. destruct (Util.py_eq x y) eqn:E; [|done].
  apply negb_true_iff in Hx.
  assert (existsb (fun y => Util.py_eq x y) l = true) as Hex
    by (apply existsb_exists; eauto).
  congruence.
Qed.

Lemma dedup_from_fresh (l : list pyval) :
  forall seen rest,
    no_repeats l = true ->
    (forall y, In y l -> Util.py_in y seen = false) ->
    dedup_from seen (l ++ rest) = l ++ dedup_from (seen ++ l) rest.
Proof.
  induction l as [|x l IH]; intros seen rest Hnr Hseen.
  - by rewrite app_nil_r.
  - apply no_repeats_cons in Hnr as [Hx Hnr].
    cbn [app dedup_from]. rewrite (Hseen x) by (by left). f_equal.
    rewrite (IH (seen ++ [x]) rest Hnr).
    + by rewrite <- app_assoc.
    + intros y Hy. rewrite py_in_app, (Hseen y) by (by right).
      unfold Util.py_in. cbn [existsb]. by rewrite (Hx y Hy).
Qed.

Lemma dedup_from_base (base other : list pyval) :
  forall kept,
    no_repeats other = true ->
    (forall y, In y other -> Util.py_in y kept = false) ->
    dedup_from (base ++ kept) other
    = List.filter (fun e => negb (Util.py_in e base)) other.
Proof.
  induction other as [|x other IH]; intros kept Hnr Hkept; [done|].
  apply no_repeats_cons in Hnr as [Hx Hnr].
  cbn [dedup_from List.filter]. rewrite py_in_app, (Hkept x) by (by left).
  rewrite orb_false_r. destruct (Util.py_in x base); cbn [negb].
  - apply IH; [done|]. intros y Hy. apply Hkept. by right.
  - f_equal. rewrite <- app_assoc. apply IH; [done|].
    intros y Hy. rewrite py_in_app, (Hkept y) by (by right).
    unfold Util.py_in. cbn [existsb]. by rewrite (Hx y Hy).
Qed.

(** X27: where the list merge of [merge_dicts] does deduplicate.  When
    neither the default list nor the user's list holds an element twice,
    the merged list is the concatenation of the two with every element
    kept at its first occurrence only. *)
Theorem list_merge_dedup (base other : list pyval) :
  no_repeats base = true ->
  no_repeats other = true ->
  Util.list_merge base other = spec_list_merge base other.
Proof.
  intros Hb Ho. unfold Util.list_merge, spec_list_merge.
  rewrite (dedup_from_fresh base [] other Hb) by done.
  cbn [app]. f_equal.
  rewrite <- (app_nil_r base) at 1. symmetry. by apply dedup_from_base.
Qed.

Lemma list_merge_dedup_witness :
  Util.list_merge [PyAtom (AStr "dev"); PyAtom (AStr "qa")]
    [PyAtom (AStr "qa"); PyAtom (AStr "prod")]
  = spec_list_merge [PyAtom (AStr "dev"); PyAtom (AStr "qa")]
      [PyAtom (AStr "qa"); PyAtom (AStr "prod")].
Proof. apply list_merge_dedup; reflexivity. Defined.

(** * Where the code departs from its documentation *)

(** C7: the list merge does not deduplicate.  With the defaults
    [{'channels': ['dev']}] and the user configuration
    [{'channels': ['prod', 'prod']}], [merge_dicts] returns
    [{'channels': ['dev', 'prod', 'prod']}].  The user's element is tested
    against the default list only, so it is kept twice; concatenating and
    then deduplicating gives [['dev', 'prod']]. *)
Theorem merge_dicts_keeps_repeats :
  Util.merge_dicts (PyDict repeated_defaults) (PyDict repeated_user_config) Util.LsMerge
  = Ok (PyDict [("channels", PyList [PyAtom (AStr "dev"); PyAtom (AStr "prod");
                                     PyAtom (AStr "prod")])])
  /\ ~ NoDup [PyAtom (AStr "dev"); PyAtom (AStr "prod"); PyAtom (AStr "prod")]
  /\ spec_list_merge [PyAtom (AStr "dev")] [PyAtom (AStr "prod"); PyAtom (AStr "prod")]
     = [PyAtom (AStr "dev"); PyAtom (AStr "prod")]
  /\ Util.list_merge [PyAtom (AStr "dev")] [PyAtom (AStr "prod"); PyAtom (AStr "prod")]
     <> spec_list_merge [PyAtom (AStr "dev")]
          [PyAtom (AStr "prod"); PyAtom (AStr "prod")].
Proof.
  split; [reflexivity|]. split.
  - intros Hnd. apply NoDup_cons in Hnd as [_ Hnd].
    apply NoDup_cons in Hnd as [Hin _]. apply Hin. apply elem_of_cons. by left.
  - split; [reflexivity|]. vm_compute. discriminate.
Qed.

(** C8: a step declared with an empty ['depends'] list has an empty
    dependency set.  The constructor turns a declared list into a set and
    adds the step's own name only when the entry is absent, so [depends()]
    of the step built from [depends: []] is the empty set. *)
Theorem empty_depends_list :
  exists self,
    PipelineStep_init "compile" raw_empty_depends false BOURNE_SHELL None = Ok self
    /\ name self = "compile"
    /\ raw_depends (raw self) = Some (DependsSet ∅)
    /\ depends self = (Ok ∅, self).
Proof. eexists. split; [reflexivity|]. split; [reflexivity|]. split; reflexivity. Qed.
